(** * RPN anchor targets and box transforms of tf-eager-fasterrcnn

    A shallow embedding of

      - [detection/core/bbox/transforms.py]
        ([bbox2delta], [delta2bbox], [bbox_clip]) and
      - [detection/core/anchor/anchor_target.py]
        ([AnchorTarget._build_single_target], [AnchorTarget.build_targets])

    together with the properties that the specification states about
    them.

    Number model.  Image coordinates and IoU values are finite
    floating-point numbers; every finite float is a rational, and the
    operations used on them by the matching code (comparison, minimum,
    maximum) are exact, so they are modelled in [Q] and stay
    executable.  The box parameterization needs [log] and [exp] and can
    leave the finite numbers (division by zero, logarithm of zero), so
    it is modelled in [f32]: the real numbers extended by the IEEE-754
    special values, with exact (unrounded) arithmetic on the finite
    ones. *)

From Stdlib Require Import List Bool Arith ZArith QArith Qminmax Qreals.
From Stdlib Require Import Reals Lra Lia Permutation Sorted.
Import ListNotations.

(** ** Errors raised by TensorFlow kernels *)

Inductive tf_error : Type :=
| InvalidArgument   (* empty reduction axis, incompatible shapes *)
| OutOfRange.       (* gather / scatter index outside the tensor *)

Inductive result (A : Type) : Type :=
| Ok (a : A)
| Raise (e : tf_error).

Arguments Ok {A} a.
Arguments Raise {A} e.

Definition bind {A B : Type} (m : result A) (k : A -> result B) : result B :=
  match m with
  | Ok a => k a
  | Raise e => Raise e
  end.

Notation "x <- m ;; k" := (bind m (fun x => k))
  (at level 61, m at next level, right associativity).
Notation "' pat <- m ;; k" :=
  (bind m (fun x => match x with pat => k end))
  (at level 61, pat pattern, m at next level, right associativity).

(** ** Rows of four columns: boxes, deltas, means, stds, windows *)

Record row4 (A : Type) : Type := Row4 {
  col0 : A;   (* y1 | dy *)
  col1 : A;   (* x1 | dx *)
  col2 : A;   (* y2 | log dh *)
  col3 : A    (* x2 | log dw *)
}.

Arguments Row4 {A} _ _ _ _.
Arguments col0 {A} _.
Arguments col1 {A} _.
Arguments col2 {A} _.
Arguments col3 {A} _.

Definition row_map {A B : Type} (f : A -> B) (r : row4 A) : row4 B :=
  Row4 (f (col0 r)) (f (col1 r)) (f (col2 r)) (f (col3 r)).

Definition row_zip {A B C : Type} (f : A -> B -> C)
    (r : row4 A) (s : row4 B) : row4 C :=
  Row4 (f (col0 r) (col0 s)) (f (col1 r) (col1 s))
       (f (col2 r) (col2 s)) (f (col3 r) (col3 s)).

(** Elementwise binary operation on two batches with TensorFlow's
    broadcasting of the leading dimension: equal sizes pair by position,
    a batch of one row is repeated, anything else is rejected. *)
Definition broadcast2 {A B C : Type} (f : A -> B -> C)
    (xs : list A) (ys : list B) : result (list C) :=
  if Nat.eqb (length xs) (length ys) then
    Ok (map (fun p => f (fst p) (snd p)) (combine xs ys))
  else
    match xs, ys with
    | [x], _ => Ok (map (f x) ys)
    | _, [y] => Ok (map (fun x => f x y) xs)
    | _, _ => Raise InvalidArgument
    end.

(** ** Idealized float32 *)

Module Float32.

Local Open Scope R_scope.

Inductive f32 : Type :=
| Fin (r : R)
| PInf
| NInf
| NaN.

Definition is_finite (x : f32) : bool :=
  match x with
  | Fin _ => true
  | _ => false
  end.

Definition inf_of_sign (negative : bool) : f32 :=
  if negative then NInf else PInf.

(** Sign of a real: [Lt] negative, [Eq] zero, [Gt] positive. *)
Definition Rsign (r : R) : comparison :=
  match total_order_T r 0 with
  | inleft (left _) => Lt
  | inleft (right _) => Eq
  | inright _ => Gt
  end.

Definition fneg (x : f32) : f32 :=
  match x with
  | Fin r => Fin (- r)
  | PInf => NInf
  | NInf => PInf
  | NaN => NaN
  end.

Definition fadd (x y : f32) : f32 :=
  match x, y with
  | NaN, _ | _, NaN => NaN
  | Fin a, Fin b => Fin (a + b)
  | PInf, NInf | NInf, PInf => NaN
  | PInf, _ | _, PInf => PInf
  | NInf, _ | _, NInf => NInf
  end.

Definition fsub (x y : f32) : f32 := fadd x (fneg y).

(** An infinity scaled by a finite factor. *)
Definition inf_times (negative : bool) (r : R) : f32 :=
  match Rsign r with
  | Eq => NaN
  | Gt => inf_of_sign negative
  | Lt => inf_of_sign (negb negative)
  end.

Definition fmul (x y : f32) : f32 :=
  match x, y with
  | NaN, _ | _, NaN => NaN
  | Fin a, Fin b => Fin (a * b)
  | PInf, Fin b | Fin b, PInf => inf_times false b
  | NInf, Fin b | Fin b, NInf => inf_times true b
  | PInf, PInf | NInf, NInf => PInf
  | PInf, NInf | NInf, PInf => NInf
  end.

(** Division.  A finite nonzero numerator over zero is an infinity, zero
    over zero is NaN; the sign of a zero divisor is not tracked. *)
Definition fdiv (x y : f32) : f32 :=
  match x, y with
  | NaN, _ | _, NaN => NaN
  | Fin a, Fin b =>
      match Rsign b with
      | Eq => match Rsign a with
              | Eq => NaN
              | Gt => PInf
              | Lt => NInf
              end
      | _ => Fin (a / b)
      end
  | Fin _, (PInf | NInf) => Fin 0
  | PInf, Fin b => inf_of_sign (match Rsign b with Lt => true | _ => false end)
  | NInf, Fin b => inf_of_sign (match Rsign b with Lt => false | _ => true end)
  | (PInf | NInf), (PInf | NInf) => NaN
  end.

Definition flog (x : f32) : f32 :=
  match x with
  | Fin a =>
      match Rsign a with
      | Gt => Fin (ln a)
      | Eq => NInf
      | Lt => NaN
      end
  | PInf => PInf
  | NInf | NaN => NaN
  end.

Definition fexp (x : f32) : f32 :=
  match x with
  | Fin a => Fin (exp a)
  | PInf => PInf
  | NInf => Fin 0
  | NaN => NaN
  end.

(** [tf.cast(_, tf.float32)] *)
Class Cast (A : Type) : Type := cast : A -> f32.

#[export] Instance cast_f32 : Cast f32 := fun x => x.
#[export] Instance cast_Q : Cast Q := fun q => Fin (Q2R q).
#[export] Instance cast_Z : Cast Z := fun z => Fin (IZR z).

End Float32.

Export Float32.

Declare Scope f32_scope.
Delimit Scope f32_scope with f32.
Bind Scope f32_scope with f32.
Infix "+" := fadd : f32_scope.
Infix "-" := fsub : f32_scope.
Infix "*" := fmul : f32_scope.
Infix "/" := fdiv : f32_scope.

(** ** detection/core/bbox/transforms.py *)

Module transforms.

Local Open Scope f32_scope.

Definition half : f32 := Fin (1 / 2).

(** [bbox2delta] on one pair of rows (lines 13-32). *)
Definition bbox2delta_row {A B : Type} `{Cast A} `{Cast B}
    (target_means target_stds : row4 f32)
    (box : row4 A) (gt_box : row4 B) : row4 f32 :=
  let box := row_map cast box in
  let gt_box := row_map cast gt_box in
  let height := col2 box - col0 box in
  let width := col3 box - col1 box in
  let center_y := col0 box + half * height in
  let center_x := col1 box + half * width in
  let gt_height := col2 gt_box - col0 gt_box in
  let gt_width := col3 gt_box - col1 gt_box in
  let gt_center_y := col0 gt_box + half * gt_height in
  let gt_center_x := col1 gt_box + half * gt_width in
  let dy := (gt_center_y - center_y) / height in
  let dx := (gt_center_x - center_x) / width in
  let dh := flog (gt_height / height) in
  let dw := flog (gt_width / width) in
  let delta := Row4 dy dx dh dw in
  row_zip fdiv (row_zip fsub delta target_means) target_stds.

(** [bbox2delta(box, gt_box, target_means, target_stds)] on batches
    [[N, 4]]. *)
Definition bbox2delta {A B : Type} `{Cast A} `{Cast B}
    (box : list (row4 A)) (gt_box : list (row4 B))
    (target_means target_stds : row4 f32) : result (list (row4 f32)) :=
  broadcast2 (bbox2delta_row target_means target_stds) box gt_box.

(** [delta2bbox] on one pair of rows (lines 46-65). *)
Definition delta2bbox_row (target_means target_stds : row4 f32)
    (box delta : row4 f32) : row4 f32 :=
  let delta := row_zip fadd (row_zip fmul delta target_stds) target_means in
  let height := col2 box - col0 box in
  let width := col3 box - col1 box in
  let center_y := col0 box + half * height in
  let center_x := col1 box + half * width in
  let center_y := center_y + col0 delta * height in
  let center_x := center_x + col1 delta * width in
  let height := height * fexp (col2 delta) in
  let width := width * fexp (col3 delta) in
  let y1 := center_y - half * height in
  let x1 := center_x - half * width in
  let y2 := y1 + height in
  let x2 := x1 + width in
  Row4 y1 x1 y2 x2.

(** [delta2bbox(box, delta, target_means, target_stds)]. *)
Definition delta2bbox (box delta : list (row4 f32))
    (target_means target_stds : row4 f32) : result (list (row4 f32)) :=
  broadcast2 (delta2bbox_row target_means target_stds) box delta.

(** [bbox_clip] on one row (lines 76-83): each coordinate is
    [maximum(minimum(v, hi), lo)]. *)
Definition bbox_clip_row (window : row4 Q) (box : row4 Q) : row4 Q :=
  let wy1 := col0 window in
  let wx1 := col1 window in
  let wy2 := col2 window in
  let wx2 := col3 window in
  let y1 := Qmax (Qmin (col0 box) wy2) wy1 in
  let x1 := Qmax (Qmin (col1 box) wx2) wx1 in
  let y2 := Qmax (Qmin (col2 box) wy2) wy1 in
  let x2 := Qmax (Qmin (col3 box) wx2) wx1 in
  Row4 y1 x1 y2 x2.

(** [bbox_clip(box, window)]: the window is broadcast over the rows. *)
Definition bbox_clip (box : list (row4 Q)) (window : row4 Q)
    : list (row4 Q) :=
  map (bbox_clip_row window) box.

End transforms.

(** ** detection/core/bbox/geometry.py *)

Module geometry.

Local Open Scope Q_scope.

(** A rank-2 tensor of IoU values with its static shape; [rows] holds
    [dim0] lists of [dim1] entries. *)
Record tensor2 : Type := Tensor2 {
  dim0 : nat;
  dim1 : nat;
  rows : list (list Q)
}.

Definition area (b : row4 Q) : Q :=
  (col2 b - col0 b) * (col3 b - col1 b).

(** Modelled from the spec: the body of [geometry.compute_overlaps] is
    not among the sources.  Section 4.1: intersection =
    max(0, min(y2) - max(y1)) * max(0, min(x2) - max(x1)), union =
    area_a + area_b - intersection, IoU = intersection / union and 0
    when the union is 0. *)
Definition iou (a b : row4 Q) : Q :=
  let ih := Qmax 0 (Qmin (col2 a) (col2 b) - Qmax (col0 a) (col0 b)) in
  let iw := Qmax 0 (Qmin (col3 a) (col3 b) - Qmax (col1 a) (col1 b)) in
  let intersection := ih * iw in
  let union := area a + area b - intersection in
  if Qeq_bool union 0 then 0 else intersection / union.

(** Modelled from the spec: [compute_overlaps(boxes_a, boxes_b)] is the
    N x M matrix whose entry (i, j) is the IoU of [boxes_a[i]] and
    [boxes_b[j]]. *)
Definition compute_overlaps (boxes_a boxes_b : list (row4 Q)) : tensor2 :=
  Tensor2 (length boxes_a) (length boxes_b)
          (map (fun a => map (iou a) boxes_b) boxes_a).

End geometry.

(** ** detection/utils/misc.py *)

Module misc.

Definition is_zero_row (b : row4 Q) : bool :=
  Qeq_bool (col0 b) 0 && Qeq_bool (col1 b) 0 &&
  Qeq_bool (col2 b) 0 && Qeq_bool (col3 b) 0.

(** Modelled from the spec: the body of [trim_zeros] is not among the
    sources.  Section 3: rows that are all-zero are padding and are
    trimmed, the others keep their order.  The second component is the
    mask of kept rows. *)
Definition trim_zeros (boxes : list (row4 Q)) : list (row4 Q) * list bool :=
  let non_zeros := map (fun b => negb (is_zero_row b)) boxes in
  (filter (fun b => negb (is_zero_row b)) boxes, non_zeros).

End misc.

(** ** The TensorFlow operations used by the target builder *)

Module tf.

Import geometry.

Definition qlt_bool (a b : Q) : bool := negb (Qle_bool b a).

Fixpoint argmax_from (best_i : nat) (best : Q) (i : nat) (xs : list Q) : nat :=
  match xs with
  | [] => best_i
  | x :: xs' =>
      if qlt_bool best x then argmax_from i x (S i) xs'
      else argmax_from best_i best (S i) xs'
  end.

(** Index of the first occurrence of the maximum. *)
Definition argmax_list (xs : list Q) : nat :=
  match xs with
  | [] => 0%nat
  | x :: xs' => argmax_from 0 x 1 xs'
  end.

(** Maximum of a row; [None] is the value of an empty reduction (the
    identity of max, below every finite number). *)
Definition max_list (xs : list Q) : option Q :=
  match xs with
  | [] => None
  | x :: xs' => Some (fold_left Qmax xs' x)
  end.

Definition column (t : tensor2) (j : nat) : list Q :=
  map (fun r => nth j r 0%Q) (rows t).

(** [tf.argmax(t, axis)]: the kernel rejects a reduction axis of size
    zero ("Reduction axis is empty in shape ..."). *)
Definition argmax (t : tensor2) (axis : nat) : result (list nat) :=
  match axis with
  | 0%nat =>
      if Nat.eqb (dim0 t) 0 then Raise InvalidArgument
      else Ok (map (fun j => argmax_list (column t j)) (seq 0 (dim1 t)))
  | _ =>
      if Nat.eqb (dim1 t) 0 then Raise InvalidArgument
      else Ok (map argmax_list (rows t))
  end.

(** [tf.reduce_max(t, reduction_indices=[1])] *)
Definition reduce_max (t : tensor2) : list (option Q) :=
  map max_list (rows t).

(** [m < thr] and [m >= thr] on an entry of [reduce_max]. *)
Definition less (m : option Q) (thr : Q) : bool :=
  match m with
  | None => true
  | Some v => qlt_bool v thr
  end.

Definition greater_equal (m : option Q) (thr : Q) : bool :=
  match m with
  | None => false
  | Some v => Qle_bool thr v
  end.

Definition zeros (n : nat) : list Z := repeat 0%Z n.
Definition ones (n : nat) : list Z := repeat 1%Z n.

Fixpoint select (cond : list bool) (x y : list Z) : list Z :=
  match cond, x, y with
  | c :: cond', a :: x', b :: y' => (if c then a else b) :: select cond' x' y'
  | _, _, _ => []
  end.

(** [tf.where(cond, x, y)]: the three tensors must have one shape. *)
Definition where_ (cond : list bool) (x y : list Z) : result (list Z) :=
  if Nat.eqb (length cond) (length x) && Nat.eqb (length x) (length y)
  then Ok (select cond x y)
  else Raise InvalidArgument.

(** [tf.equal(t, v)] *)
Definition equal (t : list Z) (v : Z) : list bool := map (Z.eqb v) t.

Fixpoint true_indices (i : nat) (mask : list bool) : list nat :=
  match mask with
  | [] => []
  | b :: mask' =>
      if b then i :: true_indices (S i) mask' else true_indices (S i) mask'
  end.

(** [tf.squeeze(tf.where(mask), 1)]: indices of the true entries, in
    ascending order. *)
Definition where_true (mask : list bool) : list nat := true_indices 0 mask.

Fixpoint set_nth (l : list Z) (i : nat) (v : Z) : list Z :=
  match l, i with
  | [], _ => []
  | _ :: l', O => v :: l'
  | x :: l', S i' => x :: set_nth l' i' v
  end.

(** [tf.scatter_update(ref, indices, v)] with a scalar update: an index
    outside [ref] is rejected. *)
Fixpoint scatter_update (ref : list Z) (indices : list nat) (v : Z)
    : result (list Z) :=
  match indices with
  | [] => Ok ref
  | i :: indices' =>
      if Nat.ltb i (length ref) then scatter_update (set_nth ref i v) indices' v
      else Raise OutOfRange
  end.

(** [tf.gather(params, indices)] (and [tf.gather_nd] with indices of
    shape [[P, 1]]): an index outside [params] is rejected. *)
Fixpoint gather {A : Type} (params : list A) (indices : list nat)
    : result (list A) :=
  match indices with
  | [] => Ok []
  | i :: indices' =>
      match nth_error params i with
      | Some a => r <- gather params indices' ;; Ok (a :: r)
      | None => Raise OutOfRange
      end
  end.

(** [tf.reduce_sum(tf.cast(mask, tf.int32))] *)
Definition reduce_sum_cast (mask : list bool) : Z :=
  fold_right (fun (b : bool) acc => ((if b then 1 else 0) + acc)%Z) 0%Z mask.

Fixpoint remove_nth (k : nat) (l : list nat) : list nat :=
  match l, k with
  | [], _ => []
  | _ :: l', O => l'
  | x :: l', S k' => x :: remove_nth k' l'
  end.

(** [tf.random_shuffle] with an injected random source.  The source is
    a stream of draws; the k-th draw, reduced modulo the number of
    entries still to place, picks the k-th entry of the result.  Every
    stream yields a permutation and every permutation is yielded by
    some stream. *)
Fixpoint shuffle_draws (n : nat) (draws : list nat) (l : list nat) : list nat :=
  match n with
  | O => []
  | S n' =>
      match l with
      | [] => []
      | _ :: _ =>
          let k := Nat.modulo (hd 0%nat draws) (length l) in
          nth k l 0%nat :: shuffle_draws n' (tl draws) (remove_nth k l)
      end
  end.

Definition random_shuffle (draws : list nat) (l : list nat) : list nat :=
  shuffle_draws (length l) draws l.

Definition zero_row : row4 f32 := Row4 (Fin 0) (Fin 0) (Fin 0) (Fin 0).

(** [tf.pad(t, [(0, padding), (0, 0)])] *)
Definition pad_rows (t : list (row4 f32)) (padding : Z) : list (row4 f32) :=
  t ++ repeat zero_row (Z.to_nat padding).

(** [t[i]] on the leading dimension: an index outside [t] is
    rejected. *)
Definition index {A : Type} (t : list A) (i : nat) : result A :=
  match nth_error t i with
  | Some a => Ok a
  | None => Raise OutOfRange
  end.

(** [tf.stack(ts)]: the tensors must have one shape. *)
Definition stack {A : Type} (ts : list (list A)) : result (list (list A)) :=
  match ts with
  | [] => Ok []
  | t :: ts' =>
      if forallb (fun u => Nat.eqb (length u) (length t)) ts' then Ok ts
      else Raise InvalidArgument
  end.

End tf.

(** ** detection/core/anchor/anchor_target.py *)

Module anchor_target.

Import geometry misc.

Record AnchorTarget : Type := {
  target_means : row4 f32;
  target_stds : row4 f32;
  pos_iou_thr : Q;
  neg_iou_thr : Q;
  num_rpn_deltas : Z;
  pos_fraction : Q
}.

(** [AnchorTarget.__init__] *)
Definition init (means stds : row4 f32) : AnchorTarget := {|
  target_means := means;
  target_stds := stds;
  pos_iou_thr := 7 # 10;
  neg_iou_thr := 3 # 10;
  num_rpn_deltas := 256;
  pos_fraction := 1 # 2
|}.

(** The two random sources consumed by the two [tf.random_shuffle]
    calls. *)
Record rng : Type := Rng {
  draws_pos : list nat;
  draws_neg : list nat
}.

Section build_single_target.

Variable self : AnchorTarget.

(** Lines 82-116: labels by IoU thresholds, validity filter, positive
    override and one forced anchor per ground-truth box. *)
Definition assign_labels (anchors : list (row4 Q)) (valid_flags : list Z)
    (overlaps : tensor2) : result (list nat * list Z) :=
  let n := length anchors in
  let target_matchs := tf.zeros n in
  anchor_iou_argmax <- tf.argmax overlaps 1 ;;
  let anchor_iou_max := tf.reduce_max overlaps in
  target_matchs <-
    tf.where_ (map (fun m => tf.less m (neg_iou_thr self)) anchor_iou_max)
             (map Z.opp (tf.ones n)) target_matchs ;;
  target_matchs <-
    tf.where_ (tf.equal valid_flags 1) target_matchs (tf.zeros n) ;;
  target_matchs <-
    tf.where_ (map (fun m => tf.greater_equal m (pos_iou_thr self)) anchor_iou_max)
             (tf.ones n) target_matchs ;;
  gt_iou_argmax <- tf.argmax overlaps 0 ;;
  target_matchs <- tf.scatter_update target_matchs gt_iou_argmax 1 ;;
  Ok (anchor_iou_argmax, target_matchs).

(** Lines 119-136: reset surplus positives, then surplus negatives, to
    neutral. *)
Definition subsample (r : rng) (target_matchs : list Z) : result (list Z) :=
  let ids := tf.where_true (tf.equal target_matchs 1) in
  let extra := (Z.of_nat (length ids) - num_rpn_deltas self / 2)%Z in
  target_matchs <-
    (if (0 <? extra)%Z then
       let ids := firstn (Z.to_nat extra) (tf.random_shuffle (draws_pos r) ids) in
       tf.scatter_update target_matchs ids 0
     else Ok target_matchs) ;;
  let ids := tf.where_true (tf.equal target_matchs (-1)) in
  let extra :=
    (Z.of_nat (length ids) -
     (num_rpn_deltas self - tf.reduce_sum_cast (tf.equal target_matchs 1)))%Z in
  if (0 <? extra)%Z then
    let ids := firstn (Z.to_nat extra) (tf.random_shuffle (draws_neg r) ids) in
    tf.scatter_update target_matchs ids 0
  else Ok target_matchs.

(** Lines 139-151: deltas of the positive anchors towards their best
    ground-truth box, zero-padded. *)
Definition delta_targets (anchors gt_boxes : list (row4 Q))
    (anchor_iou_argmax : list nat) (target_matchs : list Z)
    : result (list (row4 f32)) :=
  let ids := tf.where_true (tf.equal target_matchs 1) in
  a <- tf.gather anchors ids ;;
  anchor_idx <- tf.gather anchor_iou_argmax ids ;;
  gt <- tf.gather gt_boxes anchor_idx ;;
  target_deltas <-
    transforms.bbox2delta a gt (target_means self) (target_stds self) ;;
  let padding :=
    Z.max (num_rpn_deltas self - Z.of_nat (length target_deltas)) 0 in
  Ok (tf.pad_rows target_deltas padding).

(** [AnchorTarget._build_single_target] *)
Definition _build_single_target (r : rng) (anchors : list (row4 Q))
    (valid_flags : list Z) (gt_boxes : list (row4 Q)) (gt_class_ids : list Z)
    : result (list Z * list (row4 f32)) :=
  let '(gt_boxes, _) := trim_zeros gt_boxes in
  let overlaps := compute_overlaps anchors gt_boxes in
  '(anchor_iou_argmax, target_matchs) <-
    assign_labels anchors valid_flags overlaps ;;
  target_matchs <- subsample r target_matchs ;;
  target_deltas <-
    delta_targets anchors gt_boxes anchor_iou_argmax target_matchs ;;
  Ok (target_matchs, target_deltas).

(** The loop of [build_targets] (lines 51-55) over the image indices
    [imgs]; image [i] draws from the random source [rngs i]. *)
Fixpoint build_targets_loop (rngs : nat -> rng) (anchors : list (row4 Q))
    (valid_flags : list (list Z)) (gt_boxes : list (list (row4 Q)))
    (gt_class_ids : list (list Z)) (imgs : list nat)
    : result (list (list Z) * list (list (row4 f32))) :=
  match imgs with
  | [] => Ok ([], [])
  | i :: imgs' =>
      flags <- tf.index valid_flags i ;;
      boxes <- tf.index gt_boxes i ;;
      class_ids <- tf.index gt_class_ids i ;;
      '(target_match, target_delta) <-
        _build_single_target (rngs i) anchors flags boxes class_ids ;;
      '(rpn_target_matchs, rpn_target_deltas) <-
        build_targets_loop rngs anchors valid_flags gt_boxes gt_class_ids
          imgs' ;;
      Ok (target_match :: rpn_target_matchs,
          target_delta :: rpn_target_deltas)
  end.

(** [AnchorTarget.build_targets]; [tf.stop_gradient] is the identity on
    values. *)
Definition build_targets (rngs : nat -> rng) (anchors : list (row4 Q))
    (valid_flags : list (list Z)) (gt_boxes : list (list (row4 Q)))
    (gt_class_ids : list (list Z))
    : result (list (list Z) * list (list (row4 f32))) :=
  let num_imgs := length gt_class_ids in
  '(rpn_target_matchs, rpn_target_deltas) <-
    build_targets_loop rngs anchors valid_flags gt_boxes gt_class_ids
      (seq 0 num_imgs) ;;
  rpn_target_matchs <- tf.stack rpn_target_matchs ;;
  rpn_target_deltas <- tf.stack rpn_target_deltas ;;
  Ok (rpn_target_matchs, rpn_target_deltas).

End build_single_target.

End anchor_target.

(** ** Vocabulary of the statements *)

(** A row of finite floats. *)
Definition fin_row (r : row4 R) : row4 f32 := row_map Fin r.

Definition all_finite (r : row4 f32) : bool :=
  is_finite (col0 r) && is_finite (col1 r) &&
  is_finite (col2 r) && is_finite (col3 r).

(** The box [b] scaled by [k] and moved by [(ty, tx)]. *)
Definition scale_move (k ty tx : R) (b : row4 R) : row4 R :=
  Row4 (k * col0 b + ty)%R (k * col1 b + tx)%R
       (k * col2 b + ty)%R (k * col3 b + tx)%R.

(** Positive height and width. *)
Definition non_degenerate (b : row4 R) : Prop :=
  (col0 b < col2 b)%R /\ (col1 b < col3 b)%R.

Definition positive_row (r : row4 R) : Prop :=
  (0 < col0 r)%R /\ (0 < col1 r)%R /\ (0 < col2 r)%R /\ (0 < col3 r)%R.

(** The all-zero box, a padding row of the ground truth. *)
Definition padding_box : row4 Q := Row4 0%Q 0%Q 0%Q 0%Q.

(** A box in image coordinates with positive height and width. *)
Definition proper_box (b : row4 Q) : Prop :=
  (col0 b < col2 b)%Q /\ (col1 b < col3 b)%Q.

(** The casts of an image-coordinate box to finite floats. *)
Definition real_box (b : row4 Q) : row4 R := row_map Q2R b.

(** Number of labels equal to [v]. *)
Definition count (v : Z) (labels : list Z) : nat :=
  count_occ Z.eq_dec labels v.

(** The writes of [tf.scatter_update] when every index is in range. *)
Definition scatter (ref : list Z) (indices : list nat) (v : Z) : list Z :=
  fold_left (fun l i => tf.set_nth l i v) indices ref.

(** A tensor whose rows agree with its static shape. *)
Definition well_shaped (t : geometry.tensor2) : Prop :=
  length (geometry.rows t) = geometry.dim0 t /\
  Forall (fun r => length r = geometry.dim1 t) (geometry.rows t).

(** [anchor_best_gt[i] = argmax_j overlaps[i, j]] *)
Definition anchor_best_gt (overlaps : geometry.tensor2) : list nat :=
  map tf.argmax_list (geometry.rows overlaps).

(** [best_anchor_for_gt[j] = argmax_i overlaps[i, j]] *)
Definition best_anchor_for_gt (overlaps : geometry.tensor2) : list nat :=
  map (fun j => tf.argmax_list (tf.column overlaps j))
      (seq 0 (geometry.dim1 overlaps)).

(** The label that lines 103-116 give to anchor [i]. *)
Definition label_of (self : anchor_target.AnchorTarget)
    (valid_flags : list Z) (anchor_iou_max : list (option Q))
    (gt_iou_argmax : list nat) (i : nat) : Z :=
  if existsb (Nat.eqb i) gt_iou_argmax then 1%Z
  else if tf.greater_equal (nth i anchor_iou_max None)
            (anchor_target.pos_iou_thr self) then 1%Z
  else if negb (Z.eqb 1 (nth i valid_flags 0%Z)) then 0%Z
  else if tf.less (nth i anchor_iou_max None)
            (anchor_target.neg_iou_thr self) then (-1)%Z
  else 0%Z.

(** ** Concrete inputs *)

Module scenarios.

Import anchor_target.

Definition box (y1 x1 y2 x2 : Z) : row4 Q :=
  Row4 (inject_Z y1) (inject_Z x1) (inject_Z y2) (inject_Z x2).

(** The configuration of the docstring of [AnchorTarget.__init__]. *)
Definition means : row4 f32 := fin_row (Row4 0 0 0 0)%R.
Definition stds : row4 f32 := fin_row (Row4 (1 / 10) (1 / 10) (2 / 10) (2 / 10))%R.
Definition builder : AnchorTarget := init means stds.

(** A random source whose every draw is 0: the shuffles keep the order. *)
Definition first_draws : rng := Rng [] [].

(** Two anchors and a ground truth that is padding only. *)
Definition two_anchors : list (row4 Q) :=
  [box 0 0 10 10; box 100 100 110 110].
Definition padding_only : list (row4 Q) := [box 0 0 0 0].

(** Two coinciding anchors, the second one invalid, on one object. *)
Definition twin_anchors : list (row4 Q) := [box 0 0 10 10; box 0 0 10 10].
Definition twin_valid : list Z := [1; 0]%Z.
Definition one_object : list (row4 Q) := [box 0 0 10 10].

(** [n] disjoint 10 x 10 boxes in a row, 20 apart. *)
Definition strip (n : nat) : list (row4 Q) :=
  map (fun k => box 0 (20 * Z.of_nat k) 10 (20 * Z.of_nat k + 10)) (seq 0 n).

(** 129 anchors, each lying exactly on its own object. *)
Definition crowd : list (row4 Q) := strip 129.
Definition crowd_valid : list Z := repeat 1%Z 129.

End scenarios.

(** * Properties *)

(** ** Arithmetic of finite floats *)

Section FiniteFloats.

Local Open Scope R_scope.

Lemma Rsign_pos r : 0 < r -> Rsign r = Gt.
Proof.
  intros Hr. unfold Rsign.
  destruct (total_order_T r 0) as [[Hlt | Heq] | Hgt]; try reflexivity; lra.
Qed.

Lemma Rsign_neg r : r < 0 -> Rsign r = Lt.
Proof.
  intros Hr. unfold Rsign.
  destruct (total_order_T r 0) as [[Hlt | Heq] | Hgt]; try reflexivity; lra.
Qed.

Lemma Rsign_zero : Rsign 0 = Eq.
Proof.
  unfold Rsign.
  destruct (total_order_T 0 0) as [[Hlt | Heq] | Hgt]; try reflexivity; lra.
Qed.

Lemma fadd_fin a b : fadd (Fin a) (Fin b) = Fin (a + b).
Proof. reflexivity. Qed.

Lemma fsub_fin a b : fsub (Fin a) (Fin b) = Fin (a - b).
Proof. reflexivity. Qed.

Lemma fmul_fin a b : fmul (Fin a) (Fin b) = Fin (a * b).
Proof. reflexivity. Qed.

Lemma fexp_fin a : fexp (Fin a) = Fin (exp a).
Proof. reflexivity. Qed.

Lemma fdiv_fin a b : b <> 0 -> fdiv (Fin a) (Fin b) = Fin (a / b).
Proof.
  intros Hb. unfold fdiv.
  destruct (Rdichotomy _ _ Hb) as [Hneg | Hpos].
  - now rewrite (Rsign_neg b Hneg).
  - now rewrite (Rsign_pos b Hpos).
Qed.

Lemma flog_fin a : 0 < a -> flog (Fin a) = Fin (ln a).
Proof. intros Ha. unfold flog. now rewrite (Rsign_pos a Ha). Qed.

(** Division of a finite number by zero leaves the finite numbers. *)
Lemma fdiv_zero_not_finite a : is_finite (fdiv (Fin a) (Fin 0)) = false.
Proof.
  unfold fdiv. rewrite Rsign_zero. now destruct (Rsign a).
Qed.

(** A value that is not finite stays so under the normalization
    [(x - mean) / std], whatever the mean and std. *)
Lemma fsub_not_finite x m : is_finite x = false -> is_finite (fsub x m) = false.
Proof. destruct x, m; simpl; congruence. Qed.

Lemma fdiv_not_finite x s : is_finite x = false -> is_finite (fdiv x s) = false.
Proof.
  destruct x, s; simpl; try congruence; intros _;
    now destruct (Rsign r).
Qed.

Lemma normalize_not_finite x m s :
  is_finite x = false -> is_finite (fdiv (fsub x m) s) = false.
Proof. intros Hx. now apply fdiv_not_finite, fsub_not_finite. Qed.

End FiniteFloats.

Ltac fin_side := solve [ lra | apply Rdiv_lt_0_compat; lra ].

Ltac fin_eval :=
  repeat first
    [ rewrite fadd_fin | rewrite fsub_fin | rewrite fmul_fin
    | rewrite fexp_fin
    | rewrite fdiv_fin by fin_side
    | rewrite flog_fin by fin_side ].

(** ** Batches *)

Section Batches.

Context {A B C : Type}.

Lemma broadcast2_same_length (f : A -> B -> C) xs ys :
  length xs = length ys ->
  broadcast2 f xs ys = Ok (map (fun p => f (fst p) (snd p)) (combine xs ys)).
Proof.
  intros Hlen. unfold broadcast2.
  now rewrite (proj2 (Nat.eqb_eq _ _) Hlen).
Qed.

End Batches.

(** ** transforms.py *)

Section Transforms.

Import transforms.

Local Open Scope R_scope.

(** The encoding of a finite, non-degenerate pair is finite. *)
Lemma bbox2delta_row_finite (means stds box gt : row4 R) :
  non_degenerate box -> non_degenerate gt -> positive_row stds ->
  let h := col2 box - col0 box in
  let w := col3 box - col1 box in
  let gt_h := col2 gt - col0 gt in
  let gt_w := col3 gt - col1 gt in
  bbox2delta_row (fin_row means) (fin_row stds) (fin_row box) (fin_row gt)
  = fin_row
      (Row4
         (((col0 gt + 1 / 2 * gt_h - (col0 box + 1 / 2 * h)) / h
           - col0 means) / col0 stds)
         (((col1 gt + 1 / 2 * gt_w - (col1 box + 1 / 2 * w)) / w
           - col1 means) / col1 stds)
         ((ln (gt_h / h) - col2 means) / col2 stds)
         ((ln (gt_w / w) - col3 means) / col3 stds)).
Proof.
  destruct means as [m0 m1 m2 m3], stds as [s0 s1 s2 s3].
  destruct box as [y1 x1 y2 x2], gt as [gy1 gx1 gy2 gx2].
  unfold non_degenerate, positive_row. cbn [col0 col1 col2 col3].
  intros [Hh Hw] [Hgh Hgw] (Hs0 & Hs1 & Hs2 & Hs3). cbv zeta.
  unfold bbox2delta_row, fin_row, row_map, row_zip, cast, cast_f32, half.
  cbn [col0 col1 col2 col3].
  fin_eval. reflexivity.
Qed.

Lemma delta2bbox_bbox2delta_row (means stds box gt : row4 R) :
  non_degenerate box -> non_degenerate gt -> positive_row stds ->
  delta2bbox_row (fin_row means) (fin_row stds) (fin_row box)
    (bbox2delta_row (fin_row means) (fin_row stds) (fin_row box) (fin_row gt))
  = fin_row gt.
Proof.
  intros Hbox Hgt Hstds.
  rewrite (bbox2delta_row_finite means stds box gt Hbox Hgt Hstds).
  destruct means as [m0 m1 m2 m3], stds as [s0 s1 s2 s3].
  destruct box as [y1 x1 y2 x2], gt as [gy1 gx1 gy2 gx2].
  unfold non_degenerate, positive_row in *. cbn [col0 col1 col2 col3] in *.
  destruct Hbox as [Hh Hw], Hgt as [Hgh Hgw],
    Hstds as (Hs0 & Hs1 & Hs2 & Hs3).
  unfold delta2bbox_row, fin_row, row_map, row_zip, half.
  cbn [col0 col1 col2 col3].
  fin_eval.
  replace ((ln ((gy2 - gy1) / (y2 - y1)) - m2) / s2 * s2 + m2)
    with (ln ((gy2 - gy1) / (y2 - y1))) by (field; lra).
  replace ((ln ((gx2 - gx1) / (x2 - x1)) - m3) / s3 * s3 + m3)
    with (ln ((gx2 - gx1) / (x2 - x1))) by (field; lra).
  rewrite !exp_ln by fin_side.
  f_equal; f_equal; field; lra.
Qed.

Lemma roundtrip_rows (means stds : row4 R) :
  positive_row stds ->
  forall box gt : list (row4 R),
    length box = length gt ->
    Forall non_degenerate box -> Forall non_degenerate gt ->
    map (fun p => delta2bbox_row (fin_row means) (fin_row stds) (fst p) (snd p))
      (combine (map fin_row box)
         (map (fun p => bbox2delta_row (fin_row means) (fin_row stds)
                          (fst p) (snd p))
            (combine (map fin_row box) (map fin_row gt))))
    = map fin_row gt.
Proof.
  intros Hstds box.
  induction box as [| b box IH]; intros [| g gt] Hlen Hbox Hgt;
    try discriminate; [reflexivity |].
  inversion Hbox as [| ? ? Hb Hbox']; subst.
  inversion Hgt as [| ? ? Hg Hgt']; subst.
  cbn [map combine fst snd].
  rewrite (delta2bbox_bbox2delta_row means stds b g Hb Hg Hstds).
  f_equal. apply IH; [now injection Hlen | assumption | assumption].
Qed.

(** C1. Decoding the encoding of [gt] relative to [box] gives [gt]
    back, exactly, for every batch of non-degenerate box / gt pairs
    and every finite means and positive stds. *)
Theorem delta2bbox_bbox2delta_roundtrip
    (means stds : row4 R) (box gt : list (row4 R)) :
  length box = length gt ->
  Forall non_degenerate box -> Forall non_degenerate gt ->
  positive_row stds ->
  exists delta,
    bbox2delta (map fin_row box) (map fin_row gt)
      (fin_row means) (fin_row stds) = Ok delta /\
    delta2bbox (map fin_row box) delta (fin_row means) (fin_row stds)
      = Ok (map fin_row gt).
Proof.
  intros Hlen Hbox Hgt Hstds.
  eexists. split.
  - unfold bbox2delta. apply broadcast2_same_length.
    now rewrite !length_map.
  - unfold delta2bbox. rewrite broadcast2_same_length.
    + f_equal. now apply roundtrip_rows.
    + rewrite !length_map, length_combine, !length_map. lia.
Qed.

Lemma delta2bbox_bbox2delta_roundtrip_witness :
  exists delta,
    bbox2delta (map fin_row [Row4 0 0 10 10]) (map fin_row [Row4 2 3 8 9])
      (fin_row (Row4 0 0 0 0)) (fin_row (Row4 1 1 2 2)) = Ok delta /\
    delta2bbox (map fin_row [Row4 0 0 10 10]) delta
      (fin_row (Row4 0 0 0 0)) (fin_row (Row4 1 1 2 2))
      = Ok (map fin_row [Row4 2 3 8 9]).
Proof.
  apply (delta2bbox_bbox2delta_roundtrip
           (Row4 0 0 0 0) (Row4 1 1 2 2) [Row4 0 0 10 10] [Row4 2 3 8 9]).
  - reflexivity.
  - repeat constructor; simpl; lra.
  - repeat constructor; simpl; lra.
  - unfold positive_row; simpl; lra.
Defined.



End Transforms.

Section Clip.

Import transforms.

Local Open Scope Q_scope.

Lemma clamp_within (v lo hi : Q) :
  lo <= hi -> lo <= Qmax (Qmin v hi) lo <= hi.
Proof.
  intros Hwin. split.
  - apply Q.le_max_r.
  - apply Q.max_lub; [apply Q.le_min_r | exact Hwin].
Qed.

(** C9. [bbox_clip] keeps one row of four columns per box; each output
    coordinate is [max(min(v, hi), lo)] against the window bounds of
    its axis, hence inside the window interval of that axis whenever
    the interval is not empty. *)
Theorem bbox_clip_postcondition (box : list (row4 Q)) (window : row4 Q) :
  let wy1 := col0 window in
  let wx1 := col1 window in
  let wy2 := col2 window in
  let wx2 := col3 window in
  length (bbox_clip box window) = length box /\
  forall k b,
    nth_error box k = Some b ->
    exists c,
      nth_error (bbox_clip box window) k = Some c /\
      col0 c = Qmax (Qmin (col0 b) wy2) wy1 /\
      col1 c = Qmax (Qmin (col1 b) wx2) wx1 /\
      col2 c = Qmax (Qmin (col2 b) wy2) wy1 /\
      col3 c = Qmax (Qmin (col3 b) wx2) wx1 /\
      (wy1 <= wy2 -> wy1 <= col0 c <= wy2 /\ wy1 <= col2 c <= wy2) /\
      (wx1 <= wx2 -> wx1 <= col1 c <= wx2 /\ wx1 <= col3 c <= wx2).
Proof.
  cbv zeta. split.
  - unfold bbox_clip. apply length_map.
  - intros k b Hb. exists (bbox_clip_row window b).
    split; [unfold bbox_clip; now apply map_nth_error |].
    unfold bbox_clip_row. cbn [col0 col1 col2 col3].
    repeat split; try reflexivity; now apply clamp_within.
Qed.

Lemma bbox_clip_postcondition_witness :
  exists c,
    nth_error (bbox_clip [scenarios.box (-5) 3 20 9] (scenarios.box 0 0 10 10))
      0 = Some c /\
    (0 <= col0 c <= inject_Z 10 /\ 0 <= col2 c <= inject_Z 10) /\
    (0 <= col1 c <= inject_Z 10 /\ 0 <= col3 c <= inject_Z 10).
Proof.
  destruct (proj2 (bbox_clip_postcondition [scenarios.box (-5) 3 20 9]
                     (scenarios.box 0 0 10 10))
              0%nat (scenarios.box (-5) 3 20 9) eq_refl)
    as (c & Hc & _ & _ & _ & _ & Hy & Hx).
  exists c. split; [exact Hc |]. split.
  - apply Hy. discriminate.
  - apply Hx. discriminate.
Defined.

End Clip.

(** ** Tensor operations *)

Section TensorOps.

Import tf.

Local Open Scope nat_scope.

Lemma select_length c x y :
  length c = length x -> length x = length y ->
  length (select c x y) = length x.
Proof.
  revert x y. induction c as [| b c IH]; intros [| a x] [| a' y] Hc Hx;
    try discriminate; [reflexivity |].
  cbn [select length]. f_equal. apply IH; now injection Hc + injection Hx.
Qed.

Lemma nth_select c x y i :
  length c = length x -> length x = length y -> i < length x ->
  nth i (select c x y) 0%Z
  = if nth i c false then nth i x 0%Z else nth i y 0%Z.
Proof.
  revert x y i. induction c as [| b c IH]; intros [| a x] [| a' y] i Hc Hx Hi;
    try discriminate; [inversion Hi |].
  destruct i as [| i]; [reflexivity |].
  cbn [select nth]. apply IH; [now injection Hc | now injection Hx |].
  cbn [length] in Hi. lia.
Qed.

Lemma where_ok c x y :
  length c = length x -> length x = length y ->
  where_ c x y = Ok (select c x y).
Proof.
  intros Hc Hx. unfold where_.
  now rewrite (proj2 (Nat.eqb_eq _ _) Hc), (proj2 (Nat.eqb_eq _ _) Hx).
Qed.

Lemma length_zeros n : length (zeros n) = n.
Proof. apply repeat_length. Qed.

Lemma length_ones n : length (ones n) = n.
Proof. apply repeat_length. Qed.

Lemma nth_zeros n i : nth i (zeros n) 0%Z = 0%Z.
Proof.
  unfold zeros. revert i. induction n as [| n IH]; intros [| i]; simpl; auto.
Qed.

Lemma nth_ones n i : i < n -> nth i (ones n) 0%Z = 1%Z.
Proof. intros Hi. unfold ones. now apply nth_repeat_lt. Qed.

Lemma length_set_nth l i v : length (set_nth l i v) = length l.
Proof.
  revert i. induction l as [| x l IH]; intros [| i]; simpl; auto.
Qed.

Lemma nth_set_nth_eq l i v : i < length l -> nth i (set_nth l i v) 0%Z = v.
Proof.
  revert i. induction l as [| x l IH]; intros [| i] Hi; simpl in *;
    try lia; auto. apply IH. lia.
Qed.

Lemma nth_set_nth_neq l i v j : j <> i -> nth j (set_nth l i v) 0%Z = nth j l 0%Z.
Proof.
  revert i j. induction l as [| x l IH]; intros [| i] [| j] Hij; simpl;
    try reflexivity; try congruence.
  apply IH. congruence.
Qed.

Lemma length_scatter l indices v : length (scatter l indices v) = length l.
Proof.
  unfold scatter. revert l.
  induction indices as [| i indices IH]; intros l; simpl; [reflexivity |].
  now rewrite IH, length_set_nth.
Qed.

Lemma nth_scatter l indices v j :
  Forall (fun i => i < length l) indices ->
  nth j (scatter l indices v) 0%Z
  = if existsb (Nat.eqb j) indices then v else nth j l 0%Z.
Proof.
  unfold scatter. revert l.
  induction indices as [| i indices IH]; intros l Hrange; simpl;
    [reflexivity |].
  inversion Hrange as [| ? ? Hi Hrest]; subst.
  rewrite IH by (rewrite length_set_nth; exact Hrest).
  destruct (existsb (Nat.eqb j) indices); [now rewrite orb_true_r |].
  rewrite orb_false_r. destruct (Nat.eqb_spec j i) as [-> | Hne].
  - now apply nth_set_nth_eq.
  - now apply nth_set_nth_neq.
Qed.

Lemma scatter_update_ok ref indices v :
  Forall (fun i => i < length ref) indices ->
  scatter_update ref indices v = Ok (scatter ref indices v).
Proof.
  unfold scatter. revert ref.
  induction indices as [| i indices IH]; intros ref Hrange; simpl;
    [reflexivity |].
  inversion Hrange as [| ? ? Hi Hrest]; subst.
  rewrite (proj2 (Nat.ltb_lt _ _) Hi).
  apply IH. now rewrite length_set_nth.
Qed.

Lemma gather_ok {A : Type} (d : A) params indices :
  Forall (fun i => i < length params) indices ->
  gather params indices = Ok (map (fun i => nth i params d) indices).
Proof.
  induction indices as [| i indices IH]; intros Hrange; simpl;
    [reflexivity |].
  inversion Hrange as [| ? ? Hi Hrest]; subst.
  rewrite (nth_error_nth' params d Hi), (IH Hrest). reflexivity.
Qed.

(** *** Indices of the true entries *)

Lemma true_indices_In k mask i :
  In i (true_indices k mask) <-> k <= i /\ nth (i - k) mask false = true.
Proof.
  revert k. induction mask as [| b mask IH]; intros k; simpl.
  - split; [tauto | intros [_ H]; now destruct (i - k)].
  - assert (Hstep : In i (true_indices (S k) mask) <->
                    k < i /\ nth (i - k) (b :: mask) false = true).
    { rewrite IH. split; intros [Hle Hnth]; (split; [lia |]).
      - replace (i - k) with (S (i - S k)) by lia. exact Hnth.
      - replace (i - k) with (S (i - S k)) in Hnth by lia. exact Hnth. }
    destruct b; simpl.
    + rewrite Hstep. split.
      * intros [-> | [Hlt Hnth]]; [now rewrite Nat.sub_diag | split; [lia | exact Hnth]].
      * intros [Hle Hnth]. destruct (Nat.eq_dec k i) as [-> | Hne];
          [now left | right; split; [lia | exact Hnth]].
    + rewrite Hstep. split.
      * intros [Hlt Hnth]. split; [lia | exact Hnth].
      * intros [Hle Hnth]. destruct (Nat.eq_dec k i) as [-> | Hne].
        -- rewrite Nat.sub_diag in Hnth. discriminate.
        -- split; [lia | exact Hnth].
Qed.

Lemma where_true_In mask i :
  In i (where_true mask) <-> nth i mask false = true.
Proof.
  unfold where_true. rewrite true_indices_In, Nat.sub_0_r.
  split; [tauto | intros H; split; [lia | exact H]].
Qed.

Lemma where_true_lt mask i : In i (where_true mask) -> i < length mask.
Proof.
  rewrite where_true_In. intros H.
  destruct (Nat.lt_ge_cases i (length mask)) as [Hlt | Hge]; [exact Hlt |].
  rewrite nth_overflow in H by exact Hge. discriminate.
Qed.

Lemma true_indices_sorted k mask : StronglySorted lt (true_indices k mask).
Proof.
  revert k. induction mask as [| b mask IH]; intros k; simpl;
    [constructor |].
  destruct b; [| apply IH].
  constructor; [apply IH |].
  apply Forall_forall. intros i Hi. apply true_indices_In in Hi. lia.
Qed.

Lemma where_true_sorted mask : StronglySorted lt (where_true mask).
Proof. apply true_indices_sorted. Qed.

Lemma where_true_NoDup mask : NoDup (where_true mask).
Proof.
  unfold where_true. generalize 0.
  induction mask as [| b mask IH]; intros k; simpl; [constructor |].
  destruct b; [| apply IH].
  constructor; [| apply IH].
  intros Hin. apply true_indices_In in Hin. lia.
Qed.

Lemma nth_equal l v i :
  nth i (equal l v) false = true <-> nth_error l i = Some v.
Proof.
  unfold equal. revert i. induction l as [| x l IH]; intros [| i]; simpl;
    try (split; discriminate).
  - rewrite Z.eqb_eq. split; congruence.
  - apply IH.
Qed.

Lemma where_equal_In l v i :
  In i (where_true (equal l v)) <-> nth_error l i = Some v.
Proof. now rewrite where_true_In, nth_equal. Qed.

Lemma length_true_indices_equal k l v :
  length (true_indices k (equal l v)) = count v l.
Proof.
  unfold equal, count. revert k.
  induction l as [| x l IH]; intros k; simpl; [reflexivity |].
  destruct (Z.eqb_spec v x) as [-> | Hne].
  - destruct (Z.eq_dec x x) as [_ | Hc]; [| contradiction].
    simpl. now rewrite IH.
  - destruct (Z.eq_dec x v) as [Hc | _]; [congruence |]. apply IH.
Qed.

Lemma length_where_equal l v : length (where_true (equal l v)) = count v l.
Proof. apply length_true_indices_equal. Qed.

Lemma reduce_sum_cast_equal l v :
  reduce_sum_cast (equal l v) = Z.of_nat (count v l).
Proof.
  unfold equal, count, reduce_sum_cast.
  induction l as [| x l IH]; simpl; [reflexivity |].
  rewrite IH.
  destruct (Z.eqb_spec v x) as [-> | Hne].
  - destruct (Z.eq_dec x x) as [_ | Hc]; [lia | contradiction].
  - destruct (Z.eq_dec x v) as [Hc | _]; [congruence | lia].
Qed.

(** *** Counting labels across a reset *)

Lemma count_set_nth_reset l i v :
  nth_error l i = Some v -> v <> 0%Z ->
  S (count v (set_nth l i 0%Z)) = count v l.
Proof.
  unfold count. revert i.
  induction l as [| x l IH]; intros [| i] Hi Hv; cbn [set_nth nth_error] in *;
    try discriminate.
  - injection Hi as ->.
    rewrite count_occ_cons_neq by congruence.
    now rewrite count_occ_cons_eq.
  - destruct (Z.eq_dec x v) as [Heq | Hne].
    + rewrite !(count_occ_cons_eq _ _ Heq). f_equal. now apply IH.
    + rewrite !(count_occ_cons_neq _ _ Hne). now apply IH.
Qed.

Lemma count_set_nth_other l i v u :
  nth_error l i = Some v -> u <> 0%Z -> u <> v ->
  count u (set_nth l i 0%Z) = count u l.
Proof.
  unfold count. revert i.
  induction l as [| x l IH]; intros [| i] Hi Hu Huv;
    cbn [set_nth nth_error] in *; try discriminate.
  - injection Hi as ->.
    rewrite !count_occ_cons_neq by congruence. reflexivity.
  - destruct (Z.eq_dec x u) as [Heq | Hne].
    + rewrite !(count_occ_cons_eq _ _ Heq). f_equal. now apply IH.
    + rewrite !(count_occ_cons_neq _ _ Hne). now apply IH.
Qed.

Lemma nth_error_set_nth_neq l i v j :
  j <> i -> nth_error (set_nth l i v) j = nth_error l j.
Proof.
  revert i j. induction l as [| x l IH]; intros [| i] [| j] Hij; simpl;
    try reflexivity; try congruence.
  apply IH. congruence.
Qed.

Lemma count_scatter_reset l indices v :
  NoDup indices -> (forall i, In i indices -> nth_error l i = Some v) ->
  v <> 0%Z ->
  count v (scatter l indices 0%Z) + length indices = count v l.
Proof.
  unfold scatter. revert l.
  induction indices as [| i indices IH]; intros l Hnd Hval Hv; simpl;
    [lia |].
  inversion Hnd as [| ? ? Hnotin Hnd']; subst.
  rewrite <- (count_set_nth_reset l i v (Hval i (or_introl eq_refl)) Hv).
  rewrite <- (IH (set_nth l i 0%Z) Hnd'); [lia | | exact Hv].
  intros j Hj. rewrite nth_error_set_nth_neq.
  - apply Hval. now right.
  - intros ->. contradiction.
Qed.

Lemma count_scatter_other l indices v u :
  NoDup indices -> (forall i, In i indices -> nth_error l i = Some v) ->
  u <> 0%Z -> u <> v ->
  count u (scatter l indices 0%Z) = count u l.
Proof.
  unfold scatter. revert l.
  induction indices as [| i indices IH]; intros l Hnd Hval Hu Huv; simpl;
    [reflexivity |].
  inversion Hnd as [| ? ? Hnotin Hnd']; subst.
  rewrite (IH (set_nth l i 0%Z) Hnd'); [| | exact Hu | exact Huv].
  - apply (count_set_nth_other l i v u); auto. apply Hval. now left.
  - intros j Hj. rewrite nth_error_set_nth_neq.
    + apply Hval. now right.
    + intros ->. contradiction.
Qed.

End TensorOps.

(** ** The random source *)

Section Shuffle.

Import tf.

Local Open Scope nat_scope.

Lemma length_remove_nth k l :
  k < length l -> S (length (remove_nth k l)) = length l.
Proof.
  revert k. induction l as [| x l IH]; intros [| k] Hk; simpl in *;
    try lia. f_equal. apply IH. lia.
Qed.

Lemma remove_nth_perm k l :
  k < length l -> Permutation (nth k l 0 :: remove_nth k l) l.
Proof.
  revert k. induction l as [| x l IH]; intros [| k] Hk; simpl in *;
    try lia; [reflexivity |].
  etransitivity; [apply perm_swap |].
  apply perm_skip, IH. lia.
Qed.

Lemma shuffle_draws_perm n draws l :
  length l = n -> Permutation (shuffle_draws n draws l) l.
Proof.
  revert draws l. induction n as [| n IH]; intros draws l Hlen.
  - destruct l; [reflexivity | discriminate].
  - destruct l as [| x l]; [discriminate |].
    cbn [shuffle_draws].
    set (k := hd 0 draws mod length (x :: l)).
    assert (Hk : k < length (x :: l))
      by (apply Nat.mod_upper_bound; discriminate).
    etransitivity; [| apply (remove_nth_perm k (x :: l) Hk)].
    apply perm_skip, IH.
    pose proof (length_remove_nth k (x :: l) Hk). lia.
Qed.

(** Every random source yields a permutation ... *)
Lemma random_shuffle_perm draws l : Permutation (random_shuffle draws l) l.
Proof. now apply shuffle_draws_perm. Qed.

(** ... and every permutation is yielded by some random source. *)
Lemma random_shuffle_complete l' :
  forall l, Permutation l' l -> exists draws, random_shuffle draws l = l'.
Proof.
  induction l' as [| x l' IH]; intros l Hperm.
  - apply Permutation_nil in Hperm. subst. now exists [].
  - assert (Hin : In x l)
      by (apply (Permutation_in _ Hperm); now left).
    destruct (In_nth l x 0 Hin) as (k & Hk & Hnth).
    assert (Hrest : Permutation l' (remove_nth k l)).
    { apply (Permutation_cons_inv (a := x)).
      rewrite Hperm, <- Hnth. symmetry. now apply remove_nth_perm. }
    destruct (IH _ Hrest) as (draws & Hdraws).
    exists (k :: draws). unfold random_shuffle in *.
    pose proof (length_remove_nth k l Hk) as Hlen.
    destruct l as [| y l]; [inversion Hk |].
    cbn [length] in Hlen, Hk |- *. injection Hlen as Hlen.
    cbn [shuffle_draws hd tl length].
    rewrite (Nat.mod_small _ _ Hk), Hnth. f_equal.
    now rewrite <- Hlen.
Qed.

Lemma firstn_shuffle_NoDup draws l n :
  NoDup l -> NoDup (firstn n (random_shuffle draws l)).
Proof.
  intros Hnd.
  assert (Hs : NoDup (random_shuffle draws l))
    by (apply (Permutation_NoDup (l := l)); [symmetry; apply random_shuffle_perm | exact Hnd]).
  rewrite <- (firstn_skipn n (random_shuffle draws l)) in Hs.
  now apply NoDup_app_remove_r in Hs.
Qed.

Lemma firstn_shuffle_In draws l n i :
  In i (firstn n (random_shuffle draws l)) -> In i l.
Proof.
  intros Hin. apply (Permutation_in _ (random_shuffle_perm draws l)).
  rewrite <- (firstn_skipn n (random_shuffle draws l)).
  apply in_or_app. now left.
Qed.

Lemma length_firstn_shuffle draws l n :
  n <= length l -> length (firstn n (random_shuffle draws l)) = n.
Proof.
  intros Hn. apply firstn_length_le.
  now rewrite (Permutation_length (random_shuffle_perm draws l)).
Qed.

End Shuffle.

(** ** Arg-max and max of a row *)

Section ArgMax.

Import tf.

Local Open Scope Q_scope.

Lemma qlt_bool_true a b : qlt_bool a b = true <-> a < b.
Proof.
  unfold qlt_bool. rewrite negb_true_iff, <- not_true_iff_false, Qle_bool_iff.
  split; [apply Qnot_le_lt | apply Qlt_not_le].
Qed.

Lemma qlt_bool_false a b : qlt_bool a b = false <-> b <= a.
Proof.
  unfold qlt_bool. rewrite negb_false_iff. apply Qle_bool_iff.
Qed.

Lemma argmax_from_spec xs :
  forall pre bi b,
    (bi < length pre)%nat -> nth bi pre 0 = b ->
    (forall k, (k < length pre)%nat -> nth k pre 0 <= b) ->
    (forall k, (k < bi)%nat -> nth k pre 0 < b) ->
    let r := argmax_from bi b (length pre) xs in
    (r < length (pre ++ xs))%nat /\
    (forall k, (k < length (pre ++ xs))%nat ->
               nth k (pre ++ xs) 0 <= nth r (pre ++ xs) 0) /\
    (forall k, (k < r)%nat -> nth k (pre ++ xs) 0 < nth r (pre ++ xs) 0).
Proof.
  induction xs as [| x xs IH]; intros pre bi b Hbi Hb Hmax Hfirst; cbv zeta.
  - cbn [argmax_from]. rewrite app_nil_r. rewrite Hb.
    repeat split; assumption.
  - cbn [argmax_from].
    assert (Hlen : length (pre ++ [x]) = S (length pre))
      by (rewrite length_app; simpl; lia).
    replace (pre ++ x :: xs) with ((pre ++ [x]) ++ xs)
      by (now rewrite <- app_assoc).
    rewrite <- Hlen.
    destruct (qlt_bool b x) eqn:Hcmp.
    + apply qlt_bool_true in Hcmp.
      replace (length pre) with (length (pre ++ [x]) - 1)%nat at 1 by lia.
      rewrite Hlen, Nat.sub_succ, Nat.sub_0_r, <- Hlen.
      apply IH.
      * lia.
      * rewrite app_nth2 by lia. now rewrite Nat.sub_diag.
      * intros k Hk. rewrite Hlen in Hk.
        destruct (Nat.eq_dec k (length pre)) as [-> | Hne].
        -- rewrite app_nth2 by lia. rewrite Nat.sub_diag. apply Qle_refl.
        -- rewrite app_nth1 by lia. apply Qlt_le_weak.
           apply Qle_lt_trans with b; [apply Hmax; lia | exact Hcmp].
      * intros k Hk. rewrite app_nth1 by lia.
        apply Qle_lt_trans with b; [apply Hmax; lia | exact Hcmp].
    + apply qlt_bool_false in Hcmp.
      apply IH.
      * lia.
      * now rewrite app_nth1 by lia.
      * intros k Hk. rewrite Hlen in Hk.
        destruct (Nat.eq_dec k (length pre)) as [-> | Hne].
        -- rewrite app_nth2 by lia. now rewrite Nat.sub_diag.
        -- rewrite app_nth1 by lia. apply Hmax. lia.
      * intros k Hk. rewrite app_nth1 by lia. now apply Hfirst.
Qed.

(** [argmax_list] returns the first index that attains the maximum. *)
Lemma argmax_list_spec xs :
  xs <> [] ->
  (argmax_list xs < length xs)%nat /\
  (forall k, (k < length xs)%nat -> nth k xs 0 <= nth (argmax_list xs) xs 0) /\
  (forall k, (k < argmax_list xs)%nat -> nth k xs 0 < nth (argmax_list xs) xs 0).
Proof.
  destruct xs as [| x xs]; [congruence | intros _].
  apply (argmax_from_spec xs [x] 0%nat x).
  - simpl; lia.
  - reflexivity.
  - intros [| k] Hk; [apply Qle_refl | simpl in Hk; lia].
  - intros k Hk; lia.
Qed.

Lemma argmax_list_lt xs : xs <> [] -> (argmax_list xs < length xs)%nat.
Proof. intros H. apply (argmax_list_spec xs H). Qed.

End ArgMax.

(** ** Shapes of the overlap matrix *)

Section Shapes.

Import geometry tf.

Local Open Scope nat_scope.

Lemma compute_overlaps_shape anchors gt_boxes :
  well_shaped (compute_overlaps anchors gt_boxes) /\
  dim0 (compute_overlaps anchors gt_boxes) = length anchors /\
  dim1 (compute_overlaps anchors gt_boxes) = length gt_boxes.
Proof.
  unfold well_shaped, compute_overlaps. cbn [rows dim0 dim1].
  repeat split; [apply length_map |].
  apply Forall_forall. intros r Hr. apply in_map_iff in Hr.
  destruct Hr as (a & <- & _). apply length_map.
Qed.

Lemma length_column t j : length (column t j) = length (rows t).
Proof. apply length_map. Qed.

Lemma argmax_axis0 t :
  dim0 t <> 0 -> argmax t 0 = Ok (best_anchor_for_gt t).
Proof.
  intros H0. unfold argmax.
  now rewrite (proj2 (Nat.eqb_neq _ _) H0).
Qed.

Lemma argmax_axis1 t :
  dim1 t <> 0 -> argmax t 1 = Ok (anchor_best_gt t).
Proof.
  intros H1. unfold argmax.
  now rewrite (proj2 (Nat.eqb_neq _ _) H1).
Qed.

Lemma argmax_axis1_empty t : dim1 t = 0 -> argmax t 1 = Raise InvalidArgument.
Proof. intros H1. unfold argmax. now rewrite H1. Qed.

Lemma length_anchor_best_gt t : length (anchor_best_gt t) = length (rows t).
Proof. apply length_map. Qed.

Lemma length_best_anchor_for_gt t : length (best_anchor_for_gt t) = dim1 t.
Proof. unfold best_anchor_for_gt. now rewrite length_map, length_seq. Qed.

Lemma nth_best_anchor_for_gt t j :
  j < dim1 t -> nth j (best_anchor_for_gt t) 0 = argmax_list (column t j).
Proof.
  intros Hj. unfold best_anchor_for_gt.
  rewrite (nth_indep _ 0 ((fun j => argmax_list (column t j)) 0))
    by (now rewrite length_map, length_seq).
  rewrite (map_nth (fun j => argmax_list (column t j))).
  now rewrite seq_nth.
Qed.

Lemma best_anchor_for_gt_range t :
  well_shaped t -> dim0 t <> 0 ->
  Forall (fun i => i < dim0 t) (best_anchor_for_gt t).
Proof.
  intros [Hrows _] H0. apply Forall_forall. intros i Hi.
  apply in_map_iff in Hi. destruct Hi as (j & <- & _).
  rewrite <- Hrows, <- (length_column t j).
  apply argmax_list_lt. intros Hnil.
  apply (f_equal (@length Q)) in Hnil.
  rewrite length_column, Hrows in Hnil. simpl in Hnil. contradiction.
Qed.

Lemma anchor_best_gt_range t :
  well_shaped t -> dim1 t <> 0 ->
  Forall (fun j => j < dim1 t) (anchor_best_gt t).
Proof.
  intros [_ Hcols] H1. apply Forall_forall. intros j Hj.
  apply in_map_iff in Hj. destruct Hj as (r & <- & Hr).
  rewrite Forall_forall in Hcols. rewrite <- (Hcols r Hr).
  apply argmax_list_lt. intros ->. specialize (Hcols [] Hr).
  simpl in Hcols. congruence.
Qed.

Lemma length_reduce_max t : length (reduce_max t) = length (rows t).
Proof. apply length_map. Qed.

End Shapes.

(** ** The three phases of [_build_single_target] *)

Section Phases.

Import geometry misc tf anchor_target.

Local Open Scope nat_scope.

Variable self : AnchorTarget.

Lemma nth_map_bool {A : Type} (f : A -> bool) (l : list A) (d : A) i :
  i < length l -> nth i (map f l) false = f (nth i l d).
Proof.
  intros Hi. rewrite (nth_indep _ false (f d)) by (now rewrite length_map).
  apply map_nth.
Qed.

Lemma nth_neg_ones n i : i < n -> nth i (map Z.opp (ones n)) 0%Z = (-1)%Z.
Proof.
  intros Hi. change 0%Z with (Z.opp 0). rewrite map_nth.
  now rewrite nth_ones.
Qed.

Lemma nth_equal_flag l i : nth i (equal l 1) false = Z.eqb 1 (nth i l 0%Z).
Proof.
  unfold equal. change false with (Z.eqb 1 0). apply map_nth.
Qed.

(** Lines 82-116 succeed on a non-empty overlap matrix and give every
    anchor the label [label_of]. *)
Lemma assign_labels_ok anchors valid_flags t :
  well_shaped t -> dim0 t = length anchors ->
  dim0 t <> 0 -> dim1 t <> 0 ->
  length valid_flags = length anchors ->
  exists labels,
    assign_labels self anchors valid_flags t
      = Ok (anchor_best_gt t, labels) /\
    length labels = length anchors /\
    forall i, i < length anchors ->
      nth i labels 0%Z
      = label_of self valid_flags (reduce_max t) (best_anchor_for_gt t) i.
Proof.
  intros Hshape Hdim0 Hne0 Hne1 Hflags.
  pose proof Hshape as [Hrows _].
  set (n := length anchors) in *.
  set (neg := map (fun m => less m (neg_iou_thr self)) (reduce_max t)).
  set (pos := map (fun m => greater_equal m (pos_iou_thr self)) (reduce_max t)).
  set (l5 := select neg (map Z.opp (ones n)) (zeros n)).
  set (l6 := select (equal valid_flags 1) l5 (zeros n)).
  set (l7 := select pos (ones n) l6).
  assert (Hneg : length neg = n)
    by (unfold neg; rewrite length_map, length_reduce_max; congruence).
  assert (Hpos : length pos = n)
    by (unfold pos; rewrite length_map, length_reduce_max; congruence).
  assert (Hopp : length (map Z.opp (ones n)) = n)
    by (now rewrite length_map, length_ones).
  assert (Hl5 : length l5 = n).
  { unfold l5. rewrite select_length; rewrite ?Hopp, ?length_zeros; auto. }
  assert (Heq : length (equal valid_flags 1) = n)
    by (unfold equal; now rewrite length_map).
  assert (Hl6 : length l6 = n).
  { unfold l6. rewrite select_length; rewrite ?Hl5, ?length_zeros; auto. }
  assert (Hl7 : length l7 = n).
  { unfold l7. rewrite select_length; rewrite ?length_ones, ?Hl6; auto. }
  exists (scatter l7 (best_anchor_for_gt t) 1%Z).
  split; [| split].
  - unfold assign_labels. fold n.
    rewrite (argmax_axis1 t Hne1). cbn [bind].
    fold neg. rewrite where_ok by (rewrite ?Hopp, ?length_zeros; auto).
    cbn [bind]. fold l5.
    rewrite where_ok by (rewrite ?Hl5, ?length_zeros; auto).
    cbn [bind]. fold l6. fold pos.
    rewrite where_ok by (rewrite ?length_ones, ?Hl6; auto).
    cbn [bind]. fold l7.
    rewrite (argmax_axis0 t Hne0). cbn [bind].
    rewrite scatter_update_ok; [reflexivity |].
    rewrite Hl7, <- Hdim0. now apply best_anchor_for_gt_range.
  - now rewrite length_scatter.
  - intros i Hi. unfold label_of.
    rewrite nth_scatter
      by (rewrite Hl7, <- Hdim0; now apply best_anchor_for_gt_range).
    destruct (existsb (Nat.eqb i) (best_anchor_for_gt t)); [reflexivity |].
    assert (Hlen_max : i < length (reduce_max t))
      by (rewrite length_reduce_max; fold n in Hdim0; lia).
    unfold l7. rewrite nth_select by (rewrite ?length_ones, ?Hl6; auto).
    unfold pos. rewrite (nth_map_bool _ _ None) by exact Hlen_max.
    destruct (greater_equal _ _); [now apply nth_ones |].
    unfold l6. rewrite nth_select by (rewrite ?Hl5, ?length_zeros; auto; lia).
    rewrite nth_equal_flag.
    destruct (Z.eqb 1 (nth i valid_flags 0%Z)); cbn [negb];
      [| apply nth_zeros].
    unfold l5. rewrite nth_select by (rewrite ?Hopp, ?length_zeros; auto; lia).
    unfold neg. rewrite (nth_map_bool _ _ None) by exact Hlen_max.
    destruct (less _ _); [now apply nth_neg_ones | apply nth_zeros].
Qed.

(** Without a ground-truth column the per-anchor arg-max is rejected. *)
Lemma assign_labels_empty anchors valid_flags t :
  dim1 t = 0 ->
  assign_labels self anchors valid_flags t = Raise InvalidArgument.
Proof.
  intros H1. unfold assign_labels. now rewrite (argmax_axis1_empty t H1).
Qed.

(** One reset of [n] randomly chosen labels equal to [v]. *)
Lemma reset_step (v : Z) draws l n :
  v <> 0%Z -> n <= count v l ->
  let ids := firstn n (random_shuffle draws (where_true (equal l v))) in
  scatter_update l ids 0%Z = Ok (scatter l ids 0%Z) /\
  length (scatter l ids 0%Z) = length l /\
  (forall i, nth i (scatter l ids 0%Z) 0%Z = nth i l 0%Z \/
             nth i (scatter l ids 0%Z) 0%Z = 0%Z) /\
  count v (scatter l ids 0%Z) + n = count v l /\
  (forall u, u <> 0%Z -> u <> v -> count u (scatter l ids 0%Z) = count u l).
Proof.
  intros Hv Hn ids.
  assert (Hin : forall i, In i ids -> nth_error l i = Some v).
  { intros i Hi. apply where_equal_In.
    now apply (firstn_shuffle_In draws _ n). }
  assert (Hrange : Forall (fun i => i < length l) ids).
  { apply Forall_forall. intros i Hi. apply nth_error_Some.
    rewrite (Hin i Hi). discriminate. }
  assert (Hnd : NoDup ids)
    by (apply firstn_shuffle_NoDup, where_true_NoDup).
  assert (Hlen : length ids = n).
  { apply length_firstn_shuffle. now rewrite length_where_equal. }
  repeat split.
  - now apply scatter_update_ok.
  - apply length_scatter.
  - intros i. rewrite nth_scatter by exact Hrange.
    destruct (existsb (Nat.eqb i) ids); [now right | now left].
  - rewrite <- Hlen. now apply count_scatter_reset.
  - intros u Hu Huv. now apply (count_scatter_other l ids v u).
Qed.

(** Lines 119-136 always succeed; they only reset labels to neutral and
    leave at most [num_rpn_deltas / 2] positives and at most
    [num_rpn_deltas] positives and negatives together. *)
Lemma subsample_spec r l :
  num_rpn_deltas self = 256%Z ->
  exists l',
    subsample self r l = Ok l' /\
    length l' = length l /\
    (forall i, nth i l' 0%Z = nth i l 0%Z \/ nth i l' 0%Z = 0%Z) /\
    count 1 l' = Nat.min (count 1 l) 128 /\
    count (-1) l' = Nat.min (count (-1) l) (256 - count 1 l').
Proof.
  intros Hnum. unfold subsample. rewrite Hnum.
  rewrite !length_where_equal.
  change (256 / 2)%Z with 128%Z.
  assert (Hstep1 : exists l1,
    (if (0 <? Z.of_nat (count 1 l) - 128)%Z
     then scatter_update l
            (firstn (Z.to_nat (Z.of_nat (count 1 l) - 128))
               (random_shuffle (draws_pos r) (where_true (equal l 1)))) 0%Z
     else Ok l) = Ok l1 /\
    length l1 = length l /\
    (forall i, nth i l1 0%Z = nth i l 0%Z \/ nth i l1 0%Z = 0%Z) /\
    count 1 l1 = Nat.min (count 1 l) 128 /\
    count (-1) l1 = count (-1) l).
  { destruct (Z.ltb_spec 0 (Z.of_nat (count 1 l) - 128)) as [Hextra | Hextra].
    - destruct (reset_step 1%Z (draws_pos r) l
                  (Z.to_nat (Z.of_nat (count 1 l) - 128)))
        as (Hok & Hlen & Hnth & Hcnt & Hother); [discriminate | lia |].
      eexists. split; [exact Hok |]. repeat split; auto.
      + lia.
      + apply Hother; discriminate.
    - exists l. repeat split; auto. lia. }
  destruct Hstep1 as (l1 & -> & Hlen1 & Hnth1 & Hcnt1 & Hneg1).
  cbn [bind]. rewrite !length_where_equal, reduce_sum_cast_equal.
  destruct (Z.ltb_spec 0
              (Z.of_nat (count (-1) l1) - (256 - Z.of_nat (count 1 l1))))
    as [Hextra | Hextra].
  - destruct (reset_step (-1)%Z (draws_neg r) l1
                (Z.to_nat (Z.of_nat (count (-1) l1)
                           - (256 - Z.of_nat (count 1 l1)))))
      as (Hok & Hlen & Hnth & Hcnt & Hother); [discriminate | lia |].
    eexists. split; [exact Hok |].
    assert (Hpos : count 1
                     (scatter l1
                        (firstn (Z.to_nat (Z.of_nat (count (-1) l1)
                                           - (256 - Z.of_nat (count 1 l1))))
                           (random_shuffle (draws_neg r)
                              (where_true (equal l1 (-1))))) 0%Z)
                   = count 1 l1) by (apply Hother; discriminate).
    repeat split.
    + congruence.
    + intros i. destruct (Hnth i) as [-> | ->]; [apply Hnth1 | now right].
    + now rewrite Hpos.
    + rewrite Hpos. lia.
  - exists l1. repeat split; auto. lia.
Qed.

End Phases.

Section Deltas.

Import geometry misc tf anchor_target.

Local Open Scope nat_scope.

Variable self : AnchorTarget.

Lemma map_combine_maps {A B C D : Type} (f : B -> C -> D)
    (g : A -> B) (h : A -> C) (l : list A) :
  map (fun p => f (fst p) (snd p)) (combine (map g l) (map h l))
  = map (fun a => f (g a) (h a)) l.
Proof.
  induction l as [| a l IH]; simpl; [reflexivity | now rewrite IH].
Qed.

(** The delta row of positive anchor [i]. *)
Lemma delta_targets_ok anchors gt aia l :
  num_rpn_deltas self = 256%Z ->
  length l = length anchors -> length aia = length anchors ->
  Forall (fun j => j < length gt) aia ->
  delta_targets self anchors gt aia l
  = Ok (map (fun i =>
               transforms.bbox2delta_row (target_means self) (target_stds self)
                 (nth i anchors padding_box)
                 (nth (nth i aia 0) gt padding_box))
            (where_true (equal l 1))
        ++ repeat zero_row (256 - count 1 l)).
Proof.
  intros Hnum Hl Haia Hrange. unfold delta_targets.
  set (ids := where_true (equal l 1)).
  assert (Hids : Forall (fun i => i < length anchors) ids).
  { apply Forall_forall. intros i Hi. apply where_true_lt in Hi.
    unfold equal in Hi. rewrite length_map in Hi. lia. }
  rewrite (gather_ok padding_box anchors ids Hids). cbn [bind].
  rewrite (gather_ok 0 aia ids) by (now rewrite Haia). cbn [bind].
  rewrite (gather_ok padding_box gt).
  2:{ apply Forall_forall. intros j Hj. apply in_map_iff in Hj.
      destruct Hj as (i & <- & Hi).
      rewrite Forall_forall in Hrange, Hids. apply Hrange, nth_In.
      rewrite Haia. now apply Hids. }
  cbn [bind]. unfold transforms.bbox2delta.
  rewrite broadcast2_same_length by (now rewrite !length_map).
  cbn [bind]. rewrite map_map.
  rewrite (map_combine_maps
             (transforms.bbox2delta_row (target_means self) (target_stds self))
             (fun i => nth i anchors padding_box)
             (fun i => nth (nth i aia 0) gt padding_box)).
  unfold pad_rows. rewrite Hnum, length_map.
  unfold ids at 2. rewrite length_where_equal.
  do 3 f_equal. lia.
Qed.

End Deltas.

Section Build.

Import geometry misc tf anchor_target.

Local Open Scope nat_scope.

Variable self : AnchorTarget.
Hypothesis Hnum : num_rpn_deltas self = 256%Z.

Variable r : rng.
Variables (anchors : list (row4 Q)) (valid_flags : list Z).
Variables (gt_boxes : list (row4 Q)) (gt_class_ids : list Z).

Let gt := fst (trim_zeros gt_boxes).
Let overlaps := compute_overlaps anchors gt.

(** With no true ground-truth box the call raises. *)
Lemma build_single_target_empty :
  gt = [] ->
  _build_single_target self r anchors valid_flags gt_boxes gt_class_ids
  = Raise InvalidArgument.
Proof.
  intros Hgt. unfold _build_single_target, trim_zeros.
  unfold gt, trim_zeros in Hgt. cbn [fst] in Hgt. rewrite Hgt.
  rewrite assign_labels_empty; reflexivity.
Qed.

(** With at least one anchor, one flag per anchor and one true
    ground-truth box the call returns; the three phases are chained as
    follows. *)
Lemma build_single_target_ok :
  anchors <> [] -> length valid_flags = length anchors -> gt <> [] ->
  exists l8 labels,
    assign_labels self anchors valid_flags overlaps
      = Ok (anchor_best_gt overlaps, l8) /\
    length l8 = length anchors /\
    (forall i, i < length anchors ->
       nth i l8 0%Z
       = label_of self valid_flags (reduce_max overlaps)
           (best_anchor_for_gt overlaps) i) /\
    subsample self r l8 = Ok labels /\
    length labels = length anchors /\
    (forall i, nth i labels 0%Z = nth i l8 0%Z \/ nth i labels 0%Z = 0%Z) /\
    count 1 labels = Nat.min (count 1 l8) 128 /\
    count (-1) labels = Nat.min (count (-1) l8) (256 - count 1 labels) /\
    _build_single_target self r anchors valid_flags gt_boxes gt_class_ids
    = Ok (labels,
          map (fun i =>
                 transforms.bbox2delta_row
                   (target_means self) (target_stds self)
                   (nth i anchors padding_box)
                   (nth (nth i (anchor_best_gt overlaps) 0) gt padding_box))
              (where_true (equal labels 1))
          ++ repeat zero_row (256 - count 1 labels)).
Proof.
  intros Hanchors Hflags Hgt.
  destruct (compute_overlaps_shape anchors gt) as (Hshape & Hdim0 & Hdim1).
  fold overlaps in Hshape, Hdim0, Hdim1.
  assert (Hne0 : dim0 overlaps <> 0).
  { rewrite Hdim0. destruct anchors; [congruence | discriminate]. }
  assert (Hne1 : dim1 overlaps <> 0).
  { rewrite Hdim1. destruct gt; [congruence | discriminate]. }
  destruct (assign_labels_ok self anchors valid_flags overlaps
              Hshape Hdim0 Hne0 Hne1 Hflags) as (l8 & Hassign & Hlen8 & Hlab).
  destruct (subsample_spec self r l8 Hnum)
    as (labels & Hsub & Hlen & Hkeep & Hpos & Hneg).
  exists l8, labels.
  repeat (split; [first [assumption | congruence] |]).
  unfold _build_single_target.
  change (trim_zeros gt_boxes) with (gt, snd (trim_zeros gt_boxes)).
  cbv beta iota. fold overlaps. rewrite Hassign. cbn [bind].
  rewrite Hsub. cbn [bind].
  rewrite (delta_targets_ok self anchors gt (anchor_best_gt overlaps) labels).
  - reflexivity.
  - exact Hnum.
  - congruence.
  - rewrite length_anchor_best_gt. destruct Hshape as [-> _]. exact Hdim0.
  - rewrite <- Hdim1. now apply anchor_best_gt_range.
Qed.

(** Whatever the input, returned labels come out of the subsampling. *)
Lemma build_single_target_inv labels deltas :
  _build_single_target self r anchors valid_flags gt_boxes gt_class_ids
    = Ok (labels, deltas) ->
  exists l8, subsample self r l8 = Ok labels.
Proof.
  unfold _build_single_target.
  destruct (trim_zeros gt_boxes) as [g mask].
  destruct (assign_labels self anchors valid_flags (compute_overlaps anchors g))
    as [[aia l8] | e]; cbn [bind]; [| discriminate].
  destruct (subsample self r l8) as [l10 | e] eqn:Hsub; cbn [bind];
    [| discriminate].
  destruct (delta_targets self anchors g aia l10) as [d | e]; cbn [bind];
    [| discriminate].
  intros Heq. injection Heq as <- _. now exists l8.
Qed.

End Build.

Section Overlaps.

Import geometry tf.

Local Open Scope nat_scope.

(** The entries of a column of the overlap matrix. *)
Lemma nth_column_overlaps anchors gt i j :
  i < length anchors -> j < length gt ->
  nth i (column (compute_overlaps anchors gt) j) 0%Q
  = iou (nth i anchors padding_box) (nth j gt padding_box).
Proof.
  intros Hi Hj. unfold column, compute_overlaps. cbn [rows].
  rewrite map_map.
  rewrite (nth_indep _ 0%Q
             ((fun a => nth j (map (iou a) gt) 0%Q) padding_box))
    by (now rewrite length_map).
  rewrite (map_nth (fun a => nth j (map (iou a) gt) 0%Q)).
  rewrite (nth_indep _ 0%Q (iou (nth i anchors padding_box) padding_box))
    by (now rewrite length_map).
  apply (map_nth (iou (nth i anchors padding_box))).
Qed.

End Overlaps.

Section RowMax.

Import tf.

Local Open Scope Q_scope.

Lemma fold_Qmax_ge_init xs : forall a, a <= fold_left Qmax xs a.
Proof.
  induction xs as [| x xs IH]; intros a; simpl; [apply Qle_refl |].
  apply Qle_trans with (Qmax a x); [apply Q.le_max_l | apply IH].
Qed.

Lemma fold_Qmax_ge_In xs : forall a x, In x xs -> x <= fold_left Qmax xs a.
Proof.
  induction xs as [| y xs IH]; intros a x Hin; simpl; [inversion Hin |].
  destruct Hin as [-> | Hin]; [| now apply IH].
  apply Qle_trans with (Qmax a x); [apply Q.le_max_r | apply fold_Qmax_ge_init].
Qed.

(** The entry of [reduce_max] dominates every entry of its row. *)
Lemma max_list_ge xs x :
  In x xs -> exists m, max_list xs = Some m /\ x <= m.
Proof.
  destruct xs as [| y xs]; [intros [] |]. intros Hin.
  eexists. split; [reflexivity |].
  destruct Hin as [-> | Hin];
    [apply fold_Qmax_ge_init | now apply fold_Qmax_ge_In].
Qed.

End RowMax.

(** ** The claims about [_build_single_target] *)

Section Targets.

Import geometry misc tf anchor_target.

Local Open Scope nat_scope.

Lemma existsb_eqb_In i l : existsb (Nat.eqb i) l = true <-> In i l.
Proof.
  rewrite existsb_exists. split.
  - intros (x & Hx & Heq). apply Nat.eqb_eq in Heq. now subst.
  - intros Hin. exists i. split; [exact Hin | apply Nat.eqb_refl].
Qed.

Lemma nth_error_of_nth (l : list Z) i v :
  i < length l -> nth i l 0%Z = v -> nth_error l i = Some v.
Proof. intros Hi <-. now apply nth_error_nth'. Qed.

Lemma nth_of_nth_error (l : list Z) i v :
  nth_error l i = Some v -> nth i l 0%Z = v.
Proof. intros H. now apply nth_error_nth. Qed.

Variables (anchors : list (row4 Q)) (valid_flags : list Z).
Variables (gt_boxes : list (row4 Q)) (gt_class_ids : list Z).

Let gt := fst (trim_zeros gt_boxes).
Let overlaps := compute_overlaps anchors gt.

Hypothesis some_anchor : anchors <> [].
Hypothesis one_flag_per_anchor : length valid_flags = length anchors.
Hypothesis some_true_gt_box : gt <> [].

Lemma overlaps_facts :
  well_shaped overlaps /\ dim0 overlaps = length anchors /\
  dim1 overlaps = length gt /\ dim0 overlaps <> 0 /\ dim1 overlaps <> 0.
Proof.
  destruct (compute_overlaps_shape anchors gt) as (Hshape & Hdim0 & Hdim1).
  fold overlaps in Hshape, Hdim0, Hdim1.
  repeat split; try assumption; try apply Hshape.
  - rewrite Hdim0. destruct anchors; [congruence | discriminate].
  - rewrite Hdim1. destruct gt; [congruence | discriminate].
Qed.

(** C3. With at least one true ground-truth box, right after the forced
    matching every ground-truth box [j] has its arg-max anchor
    [argmax_i overlaps[i, j]] labelled 1, whatever that anchor's IoU
    and validity flag. *)
Theorem forced_match_covers_every_gt (self : AnchorTarget) :
  exists anchor_iou_argmax labels gt_iou_argmax,
    assign_labels self anchors valid_flags overlaps
      = Ok (anchor_iou_argmax, labels) /\
    argmax overlaps 0 = Ok gt_iou_argmax /\
    length gt_iou_argmax = length gt /\
    forall j, j < length gt ->
      let best := nth j gt_iou_argmax 0 in
      best < length anchors /\
      (forall i, i < length anchors ->
         (iou (nth i anchors padding_box) (nth j gt padding_box)
          <= iou (nth best anchors padding_box) (nth j gt padding_box))%Q) /\
      nth_error labels best = Some 1%Z.
Proof.
  destruct overlaps_facts as (Hshape & Hdim0 & Hdim1 & Hne0 & Hne1).
  destruct (assign_labels_ok self anchors valid_flags overlaps
              Hshape Hdim0 Hne0 Hne1 one_flag_per_anchor)
    as (labels & Hassign & Hlen & Hlab).
  exists (anchor_best_gt overlaps), labels, (best_anchor_for_gt overlaps).
  split; [exact Hassign |].
  split; [now apply argmax_axis0 |].
  split; [now rewrite length_best_anchor_for_gt |].
  intros j Hj. cbv zeta.
  assert (Hin : In (nth j (best_anchor_for_gt overlaps) 0)
                   (best_anchor_for_gt overlaps))
    by (apply nth_In; rewrite length_best_anchor_for_gt; lia).
  assert (Hbest : nth j (best_anchor_for_gt overlaps) 0 < length anchors).
  { pose proof (best_anchor_for_gt_range overlaps Hshape Hne0) as Hrange.
    rewrite Forall_forall in Hrange. rewrite <- Hdim0. now apply Hrange. }
  split; [exact Hbest |]. split.
  - intros i Hi.
    rewrite <- !nth_column_overlaps by assumption. fold overlaps.
    rewrite (nth_best_anchor_for_gt overlaps j) by lia.
    apply argmax_list_spec.
    + intros Hnil. apply (f_equal (@length Q)) in Hnil.
      rewrite length_column in Hnil. destruct Hshape as [Hrows _].
      cbn [length] in Hnil. lia.
    + rewrite length_column. destruct Hshape as [Hrows _]. lia.
  - apply nth_error_of_nth; [lia |].
    rewrite (Hlab _ Hbest). unfold label_of.
    now rewrite (proj2 (existsb_eqb_In _ _) Hin).
Qed.

(** C8. An anchor whose best IoU is at least [pos_iou_thr] (0.7) is
    labelled 1 before subsampling, whatever its validity flag and
    whatever the negative and invalid passes wrote. *)
Theorem high_iou_anchor_is_positive (means stds : row4 f32) :
  exists anchor_iou_argmax labels,
    assign_labels (init means stds) anchors valid_flags overlaps
      = Ok (anchor_iou_argmax, labels) /\
    (forall i best_iou,
       nth_error (reduce_max overlaps) i = Some (Some best_iou) ->
       (7 # 10 <= best_iou)%Q ->
       nth_error labels i = Some 1%Z) /\
    (forall i j,
       i < length anchors -> j < length gt ->
       (7 # 10 <= iou (nth i anchors padding_box) (nth j gt padding_box))%Q ->
       nth_error labels i = Some 1%Z).
Proof.
  destruct overlaps_facts as (Hshape & Hdim0 & Hdim1 & Hne0 & Hne1).
  destruct (assign_labels_ok (init means stds) anchors valid_flags overlaps
              Hshape Hdim0 Hne0 Hne1 one_flag_per_anchor)
    as (labels & Hassign & Hlen & Hlab).
  exists (anchor_best_gt overlaps), labels.
  split; [exact Hassign |].
  assert (Hentry : forall i best_iou,
            nth_error (reduce_max overlaps) i = Some (Some best_iou) ->
            (7 # 10 <= best_iou)%Q -> nth_error labels i = Some 1%Z).
  { intros i m Hm Hge.
    assert (Hi : i < length anchors).
    { rewrite <- Hdim0. destruct Hshape as [<- _].
      rewrite <- length_reduce_max. apply nth_error_Some. congruence. }
    apply nth_error_of_nth; [lia |].
    rewrite (Hlab i Hi). unfold label_of.
    destruct (existsb (Nat.eqb i) (best_anchor_for_gt overlaps));
      [reflexivity |].
    rewrite (nth_error_nth _ _ None Hm). cbn [greater_equal init pos_iou_thr].
    now rewrite (proj2 (Qle_bool_iff _ _) Hge). }
  split; [exact Hentry |].
  intros i j Hi Hj Hge.
  assert (Hrow : In (iou (nth i anchors padding_box) (nth j gt padding_box))
                    (map (iou (nth i anchors padding_box)) gt))
    by (apply in_map, nth_In, Hj).
  destruct (max_list_ge _ _ Hrow) as (m & Hm & Hle).
  apply (Hentry i m).
  - unfold reduce_max, overlaps, compute_overlaps. cbn [rows].
    rewrite map_map.
    rewrite (nth_error_nth' _ (Some 0%Q)) by (now rewrite length_map).
    rewrite (nth_indep _ _
               ((fun a => max_list (map (iou a) gt)) padding_box))
      by (now rewrite length_map).
    rewrite (map_nth (fun a => max_list (map (iou a) gt))).
    now rewrite Hm.
  - now apply Qle_trans with (2 := Hle).
Qed.

Variable r : rng.
Variables means stds : row4 f32.

Let self := init means stds.

Lemma run :
  exists l8 labels,
    assign_labels self anchors valid_flags overlaps
      = Ok (anchor_best_gt overlaps, l8) /\
    length l8 = length anchors /\
    (forall i, i < length anchors ->
       nth i l8 0%Z
       = label_of self valid_flags (reduce_max overlaps)
           (best_anchor_for_gt overlaps) i) /\
    subsample self r l8 = Ok labels /\
    length labels = length anchors /\
    (forall i, nth i labels 0%Z = nth i l8 0%Z \/ nth i labels 0%Z = 0%Z) /\
    count 1 labels = Nat.min (count 1 l8) 128 /\
    count (-1) labels = Nat.min (count (-1) l8) (256 - count 1 labels) /\
    _build_single_target self r anchors valid_flags gt_boxes gt_class_ids
    = Ok (labels,
          map (fun i =>
                 transforms.bbox2delta_row means stds
                   (nth i anchors padding_box)
                   (nth (nth i (anchor_best_gt overlaps) 0) gt padding_box))
              (where_true (equal labels 1))
          ++ repeat zero_row (256 - count 1 labels)).
Proof.
  exact (build_single_target_ok self eq_refl r anchors valid_flags gt_boxes
           gt_class_ids some_anchor one_flag_per_anchor some_true_gt_box).
Qed.


(** C5 (amended). After subsampling at most 128 labels are 1 and at
    most 256 labels are 1 or -1, for every input and every random
    choice, also when more than 128 anchors were forced positive. *)
Theorem subsampled_label_counts :
  exists labels deltas,
    _build_single_target self r anchors valid_flags gt_boxes gt_class_ids
      = Ok (labels, deltas) /\
    count 1 labels <= 128 /\
    count 1 labels + count (-1) labels <= 256.
Proof.
  destruct run as (l8 & labels & _ & _ & _ & _ & _ & _ & Hpos & Hneg & Hrun).
  eexists labels, _. split; [exact Hrun |]. lia.
Qed.

(** C6. The returned delta array has exactly 256 rows: first, in
    ascending order of anchor index, one row per anchor labelled 1,
    equal to [bbox2delta] of that anchor and of its own arg-max
    ground-truth box, then all-zero rows. *)
Theorem delta_target_layout :
  exists labels deltas,
    _build_single_target self r anchors valid_flags gt_boxes gt_class_ids
      = Ok (labels, deltas) /\
    length deltas = 256 /\
    let positives := where_true (equal labels 1) in
    StronglySorted lt positives /\
    (forall i, In i positives <-> nth_error labels i = Some 1%Z) /\
    (forall k, k < length positives ->
       let i := nth k positives 0 in
       let j := nth i (anchor_best_gt overlaps) 0 in
       i < length anchors /\ j < length gt /\
       j = argmax_list (map (iou (nth i anchors padding_box)) gt) /\
       nth_error deltas k
       = Some (transforms.bbox2delta_row means stds
                 (nth i anchors padding_box) (nth j gt padding_box))) /\
    (forall k, length positives <= k < 256 ->
       nth_error deltas k = Some zero_row).
Proof.
  destruct overlaps_facts as (Hshape & Hdim0 & Hdim1 & Hne0 & Hne1).
  destruct run as (l8 & labels & _ & _ & _ & _ & Hlen & _ & Hpos & _ & Hrun).
  eexists labels, _. split; [exact Hrun |].
  assert (Hcount : length (where_true (equal labels 1)) = count 1 labels)
    by apply length_where_equal.
  split.
  { rewrite length_app, length_map, repeat_length, Hcount. lia. }
  cbv zeta. split; [apply where_true_sorted |].
  split; [intros i; apply where_equal_In |].
  split.
  - intros k Hk.
    set (i := nth k (where_true (equal labels 1)) 0).
    assert (Hi : i < length anchors).
    { rewrite <- Hlen.
      assert (Hin : In i (where_true (equal labels 1))) by now apply nth_In.
      apply where_true_lt in Hin. unfold equal in Hin.
      now rewrite length_map in Hin. }
    assert (Hrows : length (rows overlaps) = length anchors)
      by (destruct Hshape as [-> _]; exact Hdim0).
    split; [exact Hi |]. split; [| split].
    + pose proof (anchor_best_gt_range overlaps Hshape Hne1) as Hrange.
      rewrite Forall_forall in Hrange. rewrite <- Hdim1.
      apply Hrange, nth_In. rewrite length_anchor_best_gt. lia.
    + unfold anchor_best_gt, overlaps, compute_overlaps. cbn [rows].
      rewrite map_map.
      rewrite (nth_indep _ 0
                 ((fun a => argmax_list (map (iou a) gt)) padding_box))
        by (now rewrite length_map).
      apply (map_nth (fun a => argmax_list (map (iou a) gt))).
    + rewrite nth_error_app1 by (now rewrite length_map).
      now rewrite (map_nth_error _ k (where_true (equal labels 1))
                     (nth_error_nth' _ 0 Hk)).
  - intros k [Hlo Hhi].
    rewrite nth_error_app2 by (now rewrite length_map).
    rewrite length_map. apply nth_error_repeat. lia.
Qed.

End Targets.

(** ** The claims on concrete inputs *)

Section Scenarios.

Import geometry misc tf anchor_target scenarios.

Local Open Scope nat_scope.

Lemma ok_inj {A : Type} (a b : A) : Ok a = Ok b -> a = b.
Proof. intros H. now injection H. Qed.

Lemma ok_pair_snd {A B : Type} (a c : A) (b d : B) :
  Ok (a, b) = Ok (c, d) -> b = d.
Proof. intros H. now injection H. Qed.

Lemma two_anchors_not_empty : two_anchors <> [].
Proof. discriminate. Qed.

Lemma twin_anchors_not_empty : twin_anchors <> [].
Proof. discriminate. Qed.

Lemma one_object_is_true_gt : fst (trim_zeros one_object) <> [].
Proof. vm_compute. discriminate. Qed.

Lemma crowd_not_empty : crowd <> [].
Proof. vm_compute. discriminate. Qed.

Lemma crowd_is_true_gt : fst (trim_zeros crowd) <> [].
Proof. vm_compute. discriminate. Qed.

(** On [crowd] every anchor is labelled 1 by the matching, and the
    subsampling resets the first one. *)
Lemma crowd_assign_labels :
  assign_labels builder crowd crowd_valid
    (compute_overlaps crowd (fst (trim_zeros crowd)))
  = Ok (seq 0 129, repeat 1%Z 129).
Proof. vm_compute. reflexivity. Qed.

Lemma crowd_subsample :
  subsample builder first_draws (repeat 1%Z 129)
  = Ok (0%Z :: repeat 1%Z 128).
Proof. vm_compute. reflexivity. Qed.

Lemma forall_below (P : nat -> bool) n :
  forallb P (seq 0 n) = true -> forall i, i < n -> P i = true.
Proof.
  intros Hall i Hi. rewrite forallb_forall in Hall.
  apply Hall, in_seq. lia.
Qed.

(** C2. On two anchors and a ground truth that is padding only, the
    trimmed ground truth is empty and the call raises [InvalidArgument]
    (the per-anchor [tf.argmax] over an empty axis) instead of
    returning labels. *)
Theorem empty_ground_truth_raises :
  fst (trim_zeros padding_only) = [] /\
  _build_single_target builder first_draws two_anchors [1; 1]%Z
    padding_only [0%Z]
  = Raise InvalidArgument.
Proof.
  split; [reflexivity |].
  now apply build_single_target_empty.
Qed.

Lemma forced_match_covers_every_gt_witness :
  exists anchor_iou_argmax labels,
    assign_labels builder two_anchors [1; 1]%Z
      (compute_overlaps two_anchors (fst (trim_zeros one_object)))
    = Ok (anchor_iou_argmax, labels) /\
    nth_error labels 0 = Some 1%Z.
Proof.
  destruct (forced_match_covers_every_gt two_anchors [1; 1]%Z one_object
              two_anchors_not_empty eq_refl one_object_is_true_gt builder)
    as (aia & labels & gia & Hassign & Hgia & Hlen & Hcover).
  exists aia, labels. split; [exact Hassign |].
  vm_compute in Hgia. injection Hgia as <-.
  apply (Hcover 0). vm_compute. lia.
Defined.

Lemma high_iou_anchor_is_positive_witness :
  exists anchor_iou_argmax labels,
    assign_labels builder twin_anchors twin_valid
      (compute_overlaps twin_anchors (fst (trim_zeros one_object)))
    = Ok (anchor_iou_argmax, labels) /\
    nth_error twin_valid 1 = Some 0%Z /\
    nth_error labels 1 = Some 1%Z.
Proof.
  destruct (high_iou_anchor_is_positive twin_anchors twin_valid one_object
              twin_anchors_not_empty eq_refl one_object_is_true_gt means stds)
    as (aia & labels & Hassign & _ & Hiou).
  exists aia, labels. split; [exact Hassign |]. split; [reflexivity |].
  apply (Hiou 1 0); [vm_compute; lia | vm_compute; lia |].
  vm_compute. discriminate.
Defined.



(** C5, as stated, fails: no input and no random choice gives more
    than 128 positives.  On the 129 anchors of [crowd] every anchor is
    the forced match of its own object, and 128 labels 1 are returned. *)
Lemma positive_bound_never_fails :
  (exists labels deltas,
     length (nodup Nat.eq_dec
               (best_anchor_for_gt
                  (compute_overlaps crowd (fst (trim_zeros crowd))))) = 129 /\
     _build_single_target builder first_draws crowd crowd_valid crowd
       crowd_valid
     = Ok (labels, deltas) /\
     count 1 labels = 128) /\
  ~ (exists means stds r anchors valid_flags gt_boxes gt_class_ids
            labels deltas,
       _build_single_target (init means stds) r anchors valid_flags
         gt_boxes gt_class_ids
       = Ok (labels, deltas) /\
       128 < count 1 labels).
Proof.
  split.
  - destruct (build_single_target_ok builder eq_refl first_draws crowd
                crowd_valid crowd crowd_valid
                crowd_not_empty eq_refl crowd_is_true_gt)
      as (l8 & labels & Hassign & _ & _ & Hsub & _ & _ & _ & _ & Hrun).
    assert (Hl8 : l8 = repeat 1%Z 129).
    { rewrite crowd_assign_labels in Hassign.
      symmetry. exact (ok_pair_snd _ _ _ _ Hassign). }
    assert (Hlabels : labels = 0%Z :: repeat 1%Z 128).
    { rewrite Hl8, crowd_subsample in Hsub.
      symmetry. exact (ok_inj _ _ Hsub). }
    eexists labels, _. split; [| split; [exact Hrun |]].
    + vm_compute. reflexivity.
    + rewrite Hlabels. vm_compute. reflexivity.
  - intros (m & s & r & anchors & valid_flags & gt_boxes & gt_class_ids
            & labels & deltas & Hrun & Hmany).
    apply build_single_target_inv in Hrun. destruct Hrun as (l8 & Hsub).
    destruct (subsample_spec (init m s) r l8 eq_refl)
      as (l' & Hsub' & _ & _ & Hpos & _).
    rewrite Hsub in Hsub'. injection Hsub' as <-. lia.
Qed.

Lemma subsampled_label_counts_witness :
  exists labels deltas,
    _build_single_target builder first_draws crowd crowd_valid crowd
      crowd_valid
    = Ok (labels, deltas) /\
    count 1 labels <= 128 /\
    count 1 labels + count (-1) labels <= 256.
Proof.
  exact (subsampled_label_counts crowd crowd_valid crowd crowd_valid
           crowd_not_empty eq_refl crowd_is_true_gt first_draws means stds).
Defined.

Lemma delta_target_layout_witness :
  exists labels deltas,
    _build_single_target builder first_draws two_anchors [1; 1]%Z
      one_object [1%Z]
    = Ok (labels, deltas) /\
    length deltas = 256.
Proof.
  destruct (delta_target_layout two_anchors [1; 1]%Z one_object [1%Z]
              two_anchors_not_empty eq_refl one_object_is_true_gt
              first_draws means stds)
    as (labels & deltas & Hrun & Hlen & _).
  exists labels, deltas. split; [exact Hrun | exact Hlen].
Defined.

(** C10. Coverage does not survive subsampling: on [crowd] every
    ground-truth box is covered after the forced matching, 129 anchors
    are positive, and the reset of the surplus positive leaves the
    first ground-truth box with no anchor labelled 1 - neither its
    forced match nor any anchor that overlaps it. *)
Theorem subsampling_can_uncover_a_gt_box :
  let gt := fst (trim_zeros crowd) in
  let overlaps := compute_overlaps crowd gt in
  exists anchor_iou_argmax l8 labels deltas,
    assign_labels builder crowd crowd_valid overlaps
      = Ok (anchor_iou_argmax, l8) /\
    (forall j, j < length gt ->
       nth_error l8 (nth j (best_anchor_for_gt overlaps) 0) = Some 1%Z) /\
    count 1 l8 = 129 /\
    _build_single_target builder first_draws crowd crowd_valid crowd
      crowd_valid
    = Ok (labels, deltas) /\
    exists j, j < length gt /\
      nth_error labels (nth j (best_anchor_for_gt overlaps) 0) = Some 0%Z /\
      forall i, nth_error labels i = Some 1%Z ->
        i <> nth j (best_anchor_for_gt overlaps) 0 /\
        (iou (nth i crowd padding_box) (nth j gt padding_box) == 0)%Q.
Proof.
  cbv zeta.
  destruct (build_single_target_ok builder eq_refl first_draws crowd
              crowd_valid crowd crowd_valid
              crowd_not_empty eq_refl crowd_is_true_gt)
    as (l8 & labels & Hassign & _ & _ & Hsub & _ & _ & _ & _ & Hrun).
  assert (Hl8 : l8 = repeat 1%Z 129).
  { rewrite crowd_assign_labels in Hassign.
      symmetry. exact (ok_pair_snd _ _ _ _ Hassign). }
  assert (Hlabels : labels = 0%Z :: repeat 1%Z 128).
  { rewrite Hl8, crowd_subsample in Hsub.
      symmetry. exact (ok_inj _ _ Hsub). }
  eexists _, l8, labels, _. split; [exact Hassign |].
  split.
  { intros j Hj. rewrite Hl8. apply nth_error_repeat.
    destruct (compute_overlaps_shape crowd (fst (trim_zeros crowd)))
      as (Hshape & Hdim0 & Hdim1).
    assert (Hne0 : dim0 (compute_overlaps crowd (fst (trim_zeros crowd))) <> 0)
      by (rewrite Hdim0; vm_compute; discriminate).
    pose proof (best_anchor_for_gt_range _ Hshape Hne0) as Hrange.
    rewrite Forall_forall in Hrange.
    change 129 with (length crowd). rewrite <- Hdim0.
    apply Hrange, nth_In. now rewrite length_best_anchor_for_gt, Hdim1. }
  split; [rewrite Hl8; vm_compute; reflexivity |].
  split; [exact Hrun |].
  assert (Hbest0 :
    nth 0 (best_anchor_for_gt
             (compute_overlaps crowd (fst (trim_zeros crowd)))) 0 = 0)
    by (vm_compute; reflexivity).
  assert (Hgt0 : nth 0 (fst (trim_zeros crowd)) padding_box = box 0 0 10 10)
    by (vm_compute; reflexivity).
  exists 0. split; [vm_compute; lia |].
  rewrite Hbest0, Hgt0.
  split; [rewrite Hlabels; reflexivity |].
  intros i Hi. rewrite Hlabels in Hi.
  assert (Hbound : i < 129).
  { assert (Hsome : nth_error (0%Z :: repeat 1%Z 128) i <> None)
      by congruence.
    apply nth_error_Some in Hsome. vm_compute in Hsome. exact Hsome. }
  assert (Hcheck :
    forallb (fun i =>
               if Z.eqb (nth i (0%Z :: repeat 1%Z 128) 0%Z) 1
               then negb (Nat.eqb i 0)
                    && Qeq_bool (iou (nth i crowd padding_box)
                                   (box 0 0 10 10)) 0
               else true)
            (seq 0 129) = true) by (vm_compute; reflexivity).
  pose proof (forall_below _ _ Hcheck i Hbound) as Hi'.
  cbv beta in Hi'.
  rewrite (nth_of_nth_error _ _ _ Hi) in Hi'.
  cbn [Z.eqb Pos.eqb] in Hi'.
  apply andb_true_iff in Hi'. destruct Hi' as [Hne Hzero].
  split.
  - apply negb_true_iff, Nat.eqb_neq in Hne. exact Hne.
  - now apply Qeq_bool_iff.
Qed.

End Scenarios.

(** * Further properties of the code *)

(** ** transforms.py: the parameterization *)

Section Parameterization.

Import transforms.

Local Open Scope R_scope.

(** The raw deltas of a finite, non-degenerate pair, before the
    normalization by means and stds. *)
Lemma bbox2delta_row_raw (means stds : row4 f32) (box gt : row4 R) :
  non_degenerate box -> non_degenerate gt ->
  let h := col2 box - col0 box in
  let w := col3 box - col1 box in
  let gt_h := col2 gt - col0 gt in
  let gt_w := col3 gt - col1 gt in
  bbox2delta_row means stds (fin_row box) (fin_row gt)
  = row_zip fdiv
      (row_zip fsub
         (fin_row
            (Row4 ((col0 gt + 1 / 2 * gt_h - (col0 box + 1 / 2 * h)) / h)
                  ((col1 gt + 1 / 2 * gt_w - (col1 box + 1 / 2 * w)) / w)
                  (ln (gt_h / h)) (ln (gt_w / w))))
         means)
      stds.
Proof.
  destruct box as [y1 x1 y2 x2], gt as [gy1 gx1 gy2 gx2].
  unfold non_degenerate. cbn [col0 col1 col2 col3].
  intros [Hh Hw] [Hgh Hgw]. cbv zeta.
  unfold bbox2delta_row, fin_row, row_map, cast, cast_f32, half.
  cbn [col0 col1 col2 col3].
  fin_eval. reflexivity.
Qed.

(** The decoding of a finite delta on a finite box. *)
Lemma delta2bbox_row_finite (means stds box delta : row4 R) :
  let h := col2 box - col0 box in
  let w := col3 box - col1 box in
  let dy := col0 delta * col0 stds + col0 means in
  let dx := col1 delta * col1 stds + col1 means in
  let h' := h * exp (col2 delta * col2 stds + col2 means) in
  let w' := w * exp (col3 delta * col3 stds + col3 means) in
  let y1 := col0 box + 1 / 2 * h + dy * h - 1 / 2 * h' in
  let x1 := col1 box + 1 / 2 * w + dx * w - 1 / 2 * w' in
  delta2bbox_row (fin_row means) (fin_row stds) (fin_row box) (fin_row delta)
  = fin_row (Row4 y1 x1 (y1 + h') (x1 + w')).
Proof.
  destruct means as [m0 m1 m2 m3], stds as [s0 s1 s2 s3].
  destruct box as [y1 x1 y2 x2], delta as [d0 d1 d2 d3].
  cbn [col0 col1 col2 col3]. cbv zeta.
  unfold delta2bbox_row, fin_row, row_map, row_zip, half.
  cbn [col0 col1 col2 col3].
  fin_eval. reflexivity.
Qed.

(** X1. Encoding after decoding: for a non-degenerate box, finite means
    and positive stds, [bbox2delta] of the box and of the box decoded
    from a finite delta gives that delta back. *)
Theorem bbox2delta_delta2bbox_roundtrip (means stds box delta : row4 R) :
  non_degenerate box -> positive_row stds ->
  bbox2delta_row (fin_row means) (fin_row stds) (fin_row box)
    (delta2bbox_row (fin_row means) (fin_row stds) (fin_row box)
       (fin_row delta))
  = fin_row delta.
Proof.
  intros Hbox Hstds.
  rewrite delta2bbox_row_finite.
  destruct means as [m0 m1 m2 m3], stds as [s0 s1 s2 s3].
  destruct box as [y1 x1 y2 x2], delta as [d0 d1 d2 d3].
  unfold non_degenerate, positive_row in *. cbn [col0 col1 col2 col3] in *.
  destruct Hbox as [Hh Hw], Hstds as (Hs0 & Hs1 & Hs2 & Hs3).
  pose proof (exp_pos (d2 * s2 + m2)) as He2.
  pose proof (exp_pos (d3 * s3 + m3)) as He3.
  set (e2 := exp (d2 * s2 + m2)) in *.
  set (e3 := exp (d3 * s3 + m3)) in *.
  assert (Hh' : 0 < (y2 - y1) * e2) by (apply Rmult_lt_0_compat; lra).
  assert (Hw' : 0 < (x2 - x1) * e3) by (apply Rmult_lt_0_compat; lra).
  rewrite bbox2delta_row_raw
    by (unfold non_degenerate; cbn [col0 col1 col2 col3]; lra).
  cbn [col0 col1 col2 col3].
  unfold fin_row, row_map, row_zip. cbn [col0 col1 col2 col3].
  assert (Hs0' : s0 <> 0) by lra. assert (Hs1' : s1 <> 0) by lra.
  assert (Hs2' : s2 <> 0) by lra. assert (Hs3' : s3 <> 0) by lra.
  rewrite !fsub_fin, !(fdiv_fin _ _ Hs0'), !(fdiv_fin _ _ Hs1'),
    !(fdiv_fin _ _ Hs2'), !(fdiv_fin _ _ Hs3').
  match goal with
  | |- context [ln (?a / (y2 - y1))] =>
      replace (a / (y2 - y1)) with e2 by (field; lra)
  end.
  match goal with
  | |- context [ln (?a / (x2 - x1))] =>
      replace (a / (x2 - x1)) with e3 by (field; lra)
  end.
  unfold e2, e3. rewrite !ln_exp.
  f_equal; f_equal; field; lra.
Qed.

Lemma bbox2delta_delta2bbox_roundtrip_witness :
  bbox2delta_row (fin_row (Row4 0 0 0 0)) (fin_row (Row4 1 1 2 2))
    (fin_row (Row4 0 0 10 10))
    (delta2bbox_row (fin_row (Row4 0 0 0 0)) (fin_row (Row4 1 1 2 2))
       (fin_row (Row4 0 0 10 10)) (fin_row (Row4 1 (-1) 2 3)))
  = fin_row (Row4 1 (-1) 2 3).
Proof.
  apply (bbox2delta_delta2bbox_roundtrip
           (Row4 0 0 0 0) (Row4 1 1 2 2) (Row4 0 0 10 10) (Row4 1 (-1) 2 3)).
  - unfold non_degenerate; simpl; lra.
  - unfold positive_row; simpl; lra.
Defined.



Lemma scale_move_non_degenerate k ty tx (b : row4 R) :
  0 < k -> non_degenerate b -> non_degenerate (scale_move k ty tx b).
Proof.
  intros Hk [Hh Hw]. unfold non_degenerate, scale_move.
  cbn [col0 col1 col2 col3]. split; nra.
Qed.





End Parameterization.

(** ** transforms.py: clipping *)

Section ClipMore.

Import transforms.

Local Open Scope Q_scope.

Lemma Qmin_left x y : x <= y -> Qmin x y = x.
Proof.
  intros Hle. unfold Qmin, GenericMinMax.gmin.
  destruct (Qcompare_spec x y) as [Heq | Hlt | Hgt]; try reflexivity.
  exfalso. exact (Qlt_not_le _ _ Hgt Hle).
Qed.

Lemma Qmin_right x y : y < x -> Qmin x y = y.
Proof.
  intros Hlt. unfold Qmin, GenericMinMax.gmin.
  destruct (Qcompare_spec x y) as [Heq | Hlt' | Hgt]; try reflexivity.
  - exfalso. rewrite Heq in Hlt. exact (Qlt_irrefl _ Hlt).
  - exfalso. exact (Qlt_irrefl _ (Qlt_trans _ _ _ Hlt Hlt')).
Qed.

Lemma Qmax_left x y : y <= x -> Qmax x y = x.
Proof.
  intros Hle. unfold Qmax, GenericMinMax.gmax.
  destruct (Qcompare_spec x y) as [Heq | Hlt | Hgt]; try reflexivity.
  exfalso. exact (Qlt_not_le _ _ Hlt Hle).
Qed.

Lemma Qmax_right x y : x < y -> Qmax x y = y.
Proof.
  intros Hlt. unfold Qmax, GenericMinMax.gmax.
  destruct (Qcompare_spec x y) as [Heq | Hlt' | Hgt]; try reflexivity.
  - exfalso. rewrite Heq in Hlt. exact (Qlt_irrefl _ Hlt).
  - exfalso. exact (Qlt_irrefl _ (Qlt_trans _ _ _ Hlt Hgt)).
Qed.

(** A coordinate inside the window interval is not moved. *)
Lemma clamp_inside v lo hi : lo <= v -> v <= hi -> Qmax (Qmin v hi) lo = v.
Proof.
  intros Hlo Hhi. rewrite (Qmin_left v hi Hhi). now apply Qmax_left.
Qed.

(** With an empty window interval every coordinate lands on [lo]. *)
Lemma clamp_inverted v lo hi : hi < lo -> Qmax (Qmin v hi) lo = lo.
Proof.
  intros Hinv. apply Qmax_right.
  apply Qle_lt_trans with hi; [apply Q.le_min_r | exact Hinv].
Qed.

Lemma clamp_idempotent v lo hi :
  Qmax (Qmin (Qmax (Qmin v hi) lo) hi) lo = Qmax (Qmin v hi) lo.
Proof.
  destruct (Qlt_le_dec hi lo) as [Hinv | Hwin].
  - now rewrite !(clamp_inverted _ lo hi Hinv).
  - apply clamp_inside; now apply clamp_within.
Qed.

Lemma clamp_monotone a b lo hi :
  a <= b -> Qmax (Qmin a hi) lo <= Qmax (Qmin b hi) lo.
Proof.
  intros Hab. now apply Q.max_le_compat_r, Q.min_le_compat_r.
Qed.

Lemma bbox_clip_row_idempotent window b :
  bbox_clip_row window (bbox_clip_row window b) = bbox_clip_row window b.
Proof.
  unfold bbox_clip_row. cbn [col0 col1 col2 col3].
  now rewrite !clamp_idempotent.
Qed.

(** X5. Clipping is idempotent: clipping clipped boxes to the same
    window changes nothing, for every window (also one whose bounds
    are inverted). *)
Theorem bbox_clip_idempotent (box : list (row4 Q)) (window : row4 Q) :
  bbox_clip (bbox_clip box window) window = bbox_clip box window.
Proof.
  unfold bbox_clip. rewrite map_map.
  apply map_ext. intros b. apply bbox_clip_row_idempotent.
Qed.

(** X6. Boxes that lie inside the window are returned unchanged. *)
Theorem bbox_clip_inside_unchanged (box : list (row4 Q)) (window : row4 Q) :
  Forall (fun b =>
            col0 window <= col0 b <= col2 window /\
            col1 window <= col1 b <= col3 window /\
            col0 window <= col2 b <= col2 window /\
            col1 window <= col3 b <= col3 window) box ->
  bbox_clip box window = box.
Proof.
  intros Hin. unfold bbox_clip.
  induction Hin as [| b box Hb _ IH]; [reflexivity |].
  cbn [map]. rewrite IH. f_equal.
  destruct b as [y1 x1 y2 x2]. cbn [col0 col1 col2 col3] in Hb.
  destruct Hb as ([? ?] & [? ?] & [? ?] & [? ?]).
  unfold bbox_clip_row. cbn [col0 col1 col2 col3].
  now rewrite !clamp_inside.
Qed.

Lemma bbox_clip_inside_unchanged_witness :
  bbox_clip [scenarios.box 2 3 8 9] (scenarios.box 0 0 10 10)
  = [scenarios.box 2 3 8 9].
Proof.
  apply (bbox_clip_inside_unchanged [scenarios.box 2 3 8 9]
           (scenarios.box 0 0 10 10)).
  repeat constructor; discriminate.
Defined.

(** X7. Clipping never inverts a box: a row with [y1 <= y2] and
    [x1 <= x2] is clipped to a row with [y1' <= y2'] and [x1' <= x2'],
    for every window. *)
Theorem bbox_clip_keeps_corner_order
    (box : list (row4 Q)) (window : row4 Q) (k : nat) (b : row4 Q) :
  nth_error box k = Some b ->
  col0 b <= col2 b -> col1 b <= col3 b ->
  exists c,
    nth_error (bbox_clip box window) k = Some c /\
    col0 c <= col2 c /\ col1 c <= col3 c.
Proof.
  intros Hk Hy Hx. exists (bbox_clip_row window b).
  split; [unfold bbox_clip; now apply map_nth_error |].
  unfold bbox_clip_row. cbn [col0 col1 col2 col3].
  split; now apply clamp_monotone.
Qed.

Lemma bbox_clip_keeps_corner_order_witness :
  exists c,
    nth_error (bbox_clip [scenarios.box (-5) 3 20 9]
                 (scenarios.box 0 0 10 10)) 0 = Some c /\
    col0 c <= col2 c /\ col1 c <= col3 c.
Proof.
  apply (bbox_clip_keeps_corner_order [scenarios.box (-5) 3 20 9]
           (scenarios.box 0 0 10 10) 0%nat (scenarios.box (-5) 3 20 9)).
  - reflexivity.
  - discriminate.
  - discriminate.
Defined.

(** X8. A window whose bounds are inverted on both axes
    ([wy2 < wy1], [wx2 < wx1]) is not rejected: every box collapses to
    the single point [(wy1, wx1)]. *)
Theorem bbox_clip_inverted_window_collapses
    (box : list (row4 Q)) (window : row4 Q) :
  col2 window < col0 window -> col3 window < col1 window ->
  bbox_clip box window
  = map (fun _ => Row4 (col0 window) (col1 window)
                       (col0 window) (col1 window)) box.
Proof.
  intros Hy Hx. unfold bbox_clip. apply map_ext. intros b.
  unfold bbox_clip_row. cbn [col0 col1 col2 col3].
  now rewrite !(clamp_inverted _ _ _ Hy), !(clamp_inverted _ _ _ Hx).
Qed.

Lemma bbox_clip_inverted_window_collapses_witness :
  bbox_clip [scenarios.box 2 3 8 9] (scenarios.box 10 10 0 0)
  = [Row4 (inject_Z 10) (inject_Z 10) (inject_Z 10) (inject_Z 10)].
Proof.
  apply (bbox_clip_inverted_window_collapses [scenarios.box 2 3 8 9]
           (scenarios.box 10 10 0 0)).
  - reflexivity.
  - reflexivity.
Defined.

End ClipMore.

(** ** anchor_target.py: the labels *)

Section RowMaxMore.

Import tf.

Local Open Scope Q_scope.

Lemma Qmax_cases a b : Qmax a b = a \/ Qmax a b = b.
Proof.
  unfold Qmax, GenericMinMax.gmax. destruct (a ?= b); auto.
Qed.

Lemma fold_Qmax_In xs : forall a, In (fold_left Qmax xs a) (a :: xs).
Proof.
  induction xs as [| x xs IH]; intros a; cbn [fold_left]; [now left |].
  destruct (IH (Qmax a x)) as [Heq | Hin]; [| right; now right].
  rewrite <- Heq. destruct (Qmax_cases a x) as [-> | ->];
    [now left | right; now left].
Qed.

(** The entry of [reduce_max] is attained in its row. *)
Lemma max_list_In xs m : max_list xs = Some m -> In m xs.
Proof.
  destruct xs as [| x xs]; [discriminate |]. cbn [max_list].
  intros Heq. injection Heq as <-. apply fold_Qmax_In.
Qed.

End RowMaxMore.

Section Labels.

Import geometry misc tf anchor_target.

Local Open Scope nat_scope.

Lemma label_of_ternary self valid_flags maxs forced i :
  let l := label_of self valid_flags maxs forced i in
  l = (-1)%Z \/ l = 0%Z \/ l = 1%Z.
Proof.
  cbv zeta. unfold label_of.
  destruct (existsb _ _); [auto |].
  destruct (greater_equal _ _); [auto |].
  destruct (negb _); [auto |].
  destruct (less _ _); auto.
Qed.

(** The row of anchor [i] in [reduce_max]. *)
Lemma nth_reduce_max_overlaps anchors gt i :
  i < length anchors ->
  nth i (reduce_max (compute_overlaps anchors gt)) None
  = max_list (map (iou (nth i anchors padding_box)) gt).
Proof.
  intros Hi. unfold reduce_max, compute_overlaps. cbn [rows].
  rewrite map_map.
  rewrite (nth_indep _ None
             ((fun a => max_list (map (iou a) gt)) padding_box))
    by (now rewrite length_map).
  apply (map_nth (fun a => max_list (map (iou a) gt))).
Qed.

(** [anchor_iou_max[i] < thr] says that every IoU of anchor [i] is
    below [thr] ... *)
Lemma less_all_below anchors gt i thr :
  i < length anchors ->
  less (nth i (reduce_max (compute_overlaps anchors gt)) None) thr = true ->
  forall j, j < length gt ->
    (iou (nth i anchors padding_box) (nth j gt padding_box) < thr)%Q.
Proof.
  intros Hi Hless j Hj. rewrite nth_reduce_max_overlaps in Hless by exact Hi.
  assert (Hin : In (iou (nth i anchors padding_box) (nth j gt padding_box))
                   (map (iou (nth i anchors padding_box)) gt))
    by (apply in_map, nth_In, Hj).
  destruct (max_list_ge _ _ Hin) as (m & Hm & Hle).
  rewrite Hm in Hless. cbn [less] in Hless.
  apply qlt_bool_true in Hless.
  now apply Qle_lt_trans with m.
Qed.

(** ... and [anchor_iou_max[i] >= thr] that some IoU reaches [thr]. *)
Lemma greater_equal_some_above anchors gt i thr :
  i < length anchors ->
  greater_equal (nth i (reduce_max (compute_overlaps anchors gt)) None) thr
  = true ->
  exists j, j < length gt /\
    (thr <= iou (nth i anchors padding_box) (nth j gt padding_box))%Q.
Proof.
  intros Hi Hge. rewrite nth_reduce_max_overlaps in Hge by exact Hi.
  destruct (max_list _) as [m |] eqn:Hm; [| discriminate].
  cbn [greater_equal] in Hge. apply Qle_bool_iff in Hge.
  apply max_list_In, in_map_iff in Hm. destruct Hm as (g & <- & Hg).
  destruct (In_nth gt g padding_box Hg) as (j & Hj & <-).
  now exists j.
Qed.

Variables (means stds : row4 f32) (r : rng).
Variables (anchors : list (row4 Q)) (valid_flags : list Z).
Variables (gt_boxes : list (row4 Q)) (gt_class_ids : list Z).

Hypothesis some_anchor : anchors <> [].
Hypothesis one_flag_per_anchor : length valid_flags = length anchors.
Hypothesis some_true_gt_box : fst (trim_zeros gt_boxes) <> [].

(** X9. The returned label array has one entry per anchor and every
    entry is -1, 0 or 1. *)
Theorem labels_are_ternary :
  exists labels deltas,
    _build_single_target (init means stds) r anchors valid_flags gt_boxes
      gt_class_ids = Ok (labels, deltas) /\
    length labels = length anchors /\
    Forall (fun l => l = (-1)%Z \/ l = 0%Z \/ l = 1%Z) labels.
Proof.
  destruct (build_single_target_ok (init means stds) eq_refl r anchors
              valid_flags gt_boxes gt_class_ids
              some_anchor one_flag_per_anchor some_true_gt_box)
    as (l8 & labels & _ & _ & Hlab & _ & Hlen & Hkeep & _ & _ & Hrun).
  eexists labels, _. split; [exact Hrun |]. split; [exact Hlen |].
  apply Forall_forall. intros l Hin.
  destruct (In_nth labels l 0%Z Hin) as (i & Hi & <-).
  destruct (Hkeep i) as [-> | ->]; [| auto].
  rewrite Hlab by lia. apply label_of_ternary.
Qed.

(** X10. An anchor is returned with label -1 only if its validity flag
    is 1, it is not the forced match of any ground-truth box, and its
    IoU with every ground-truth box is below 0.3. *)
Theorem negative_label_conditions :
  exists labels deltas,
    _build_single_target (init means stds) r anchors valid_flags gt_boxes
      gt_class_ids = Ok (labels, deltas) /\
    forall i,
      nth_error labels i = Some (-1)%Z ->
      nth_error valid_flags i = Some 1%Z /\
      ~ In i (best_anchor_for_gt
                (compute_overlaps anchors (fst (trim_zeros gt_boxes)))) /\
      forall j, j < length (fst (trim_zeros gt_boxes)) ->
        (iou (nth i anchors padding_box)
             (nth j (fst (trim_zeros gt_boxes)) padding_box) < 3 # 10)%Q.
Proof.
  destruct (build_single_target_ok (init means stds) eq_refl r anchors
              valid_flags gt_boxes gt_class_ids
              some_anchor one_flag_per_anchor some_true_gt_box)
    as (l8 & labels & _ & _ & Hlab & _ & Hlen & Hkeep & _ & _ & Hrun).
  eexists labels, _. split; [exact Hrun |].
  intros i Hneg.
  assert (Hi : i < length anchors).
  { rewrite <- Hlen. apply nth_error_Some. congruence. }
  apply nth_of_nth_error in Hneg.
  destruct (Hkeep i) as [Hsame | Hzero]; [| congruence].
  rewrite Hsame, (Hlab i Hi) in Hneg. unfold label_of in Hneg.
  destruct (existsb (Nat.eqb i) _) eqn:Hforced; [discriminate |].
  destruct (greater_equal _ _); [discriminate |].
  destruct (Z.eqb_spec 1 (nth i valid_flags 0%Z)) as [Hflag | Hflag];
    cbn [negb] in Hneg; [| discriminate].
  destruct (less _ _) eqn:Hless; [| discriminate].
  split; [| split].
  - rewrite (nth_error_nth' valid_flags 0%Z) by lia. now rewrite <- Hflag.
  - intros Hin. apply existsb_eqb_In in Hin. congruence.
  - now apply less_all_below.
Qed.


(** X14. At most 128 delta rows are used: rows 128 to 255 of the
    returned delta array are always zero padding. *)
Theorem upper_half_of_deltas_is_padding :
  exists labels deltas,
    _build_single_target (init means stds) r anchors valid_flags gt_boxes
      gt_class_ids = Ok (labels, deltas) /\
    forall k, 128 <= k < 256 -> nth_error deltas k = Some zero_row.
Proof.
  destruct (build_single_target_ok (init means stds) eq_refl r anchors
              valid_flags gt_boxes gt_class_ids
              some_anchor one_flag_per_anchor some_true_gt_box)
    as (l8 & labels & _ & _ & _ & _ & _ & _ & Hpos & _ & Hrun).
  eexists labels, _. split; [exact Hrun |].
  intros k [Hlo Hhi].
  assert (Hcount : length (where_true (equal labels 1)) = count 1 labels)
    by apply length_where_equal.
  rewrite nth_error_app2 by (rewrite length_map; lia).
  rewrite length_map. apply nth_error_repeat. lia.
Qed.

End Labels.

Section LabelScenarios.

Import geometry misc tf anchor_target scenarios.

Local Open Scope nat_scope.

Lemma labels_are_ternary_witness :
  exists labels deltas,
    _build_single_target builder first_draws two_anchors [1; 1]%Z
      one_object [1%Z] = Ok (labels, deltas) /\
    length labels = 2.
Proof.
  destruct (labels_are_ternary means stds first_draws two_anchors [1; 1]%Z
              one_object [1%Z]
              two_anchors_not_empty eq_refl one_object_is_true_gt)
    as (labels & deltas & Hrun & Hlen & _).
  exists labels, deltas. split; [exact Hrun | exact Hlen].
Defined.

Lemma negative_label_conditions_witness :
  exists labels deltas,
    _build_single_target builder first_draws two_anchors [1; 1]%Z
      one_object [1%Z] = Ok (labels, deltas) /\
    (nth_error labels 1 = Some (-1)%Z ->
     nth_error [1; 1]%Z 1 = Some 1%Z).
Proof.
  destruct (negative_label_conditions means stds first_draws two_anchors
              [1; 1]%Z one_object [1%Z]
              two_anchors_not_empty eq_refl one_object_is_true_gt)
    as (labels & deltas & Hrun & Hneg).
  exists labels, deltas. split; [exact Hrun |].
  intros H. exact (proj1 (Hneg 1 H)).
Defined.


Lemma upper_half_of_deltas_is_padding_witness :
  exists labels deltas,
    _build_single_target builder first_draws two_anchors [1; 1]%Z
      one_object [1%Z] = Ok (labels, deltas) /\
    nth_error deltas 200 = Some zero_row.
Proof.
  destruct (upper_half_of_deltas_is_padding means stds first_draws
              two_anchors [1; 1]%Z one_object [1%Z]
              two_anchors_not_empty eq_refl one_object_is_true_gt)
    as (labels & deltas & Hrun & Hpad).
  exists labels, deltas. split; [exact Hrun |]. apply Hpad. lia.
Defined.

End LabelScenarios.

(** ** anchor_target.py: the subsampling *)

Section Subsampling.

Import tf anchor_target.

Local Open Scope nat_scope.

(** X11. Without surplus the subsampling is the identity: labels with
    at most 128 positives and at most 256 positives and negatives are
    returned unchanged, whatever the random source. *)
Theorem subsample_without_surplus (means stds : row4 f32) (r : rng)
    (labels : list Z) :
  count 1 labels <= 128 ->
  count 1 labels + count (-1) labels <= 256 ->
  subsample (init means stds) r labels = Ok labels.
Proof.
  intros Hpos Hall. unfold subsample. cbn [init num_rpn_deltas].
  rewrite !length_where_equal. change (256 / 2)%Z with 128%Z.
  destruct (Z.ltb_spec 0 (Z.of_nat (count 1 labels) - 128)) as [Hc | _];
    [lia |].
  cbn [bind]. rewrite !length_where_equal, reduce_sum_cast_equal.
  destruct (Z.ltb_spec 0 (Z.of_nat (count (-1) labels)
                          - (256 - Z.of_nat (count 1 labels))))
    as [Hc | _]; [lia | reflexivity].
Qed.

Lemma subsample_without_surplus_witness :
  subsample scenarios.builder (Rng [3; 1; 4] [1; 5; 9]) [1; -1; 0; -1]%Z
  = Ok [1; -1; 0; -1]%Z.
Proof.
  apply (subsample_without_surplus scenarios.means scenarios.stds
           (Rng [3; 1; 4] [1; 5; 9]) [1; -1; 0; -1]%Z).
  - vm_compute. lia.
  - vm_compute. lia.
Defined.

(** X12. The subsampling never raises, keeps the length, only resets
    labels to 0, and leaves exactly [min(P, 128)] positives and exactly
    [min(N, 256 - positives left)] negatives, [P] and [N] being the
    numbers of positives and negatives it is given. *)
Theorem subsample_exact_counts (means stds : row4 f32) (r : rng)
    (labels : list Z) :
  exists labels',
    subsample (init means stds) r labels = Ok labels' /\
    length labels' = length labels /\
    (forall i, nth i labels' 0%Z = nth i labels 0%Z \/
               nth i labels' 0%Z = 0%Z) /\
    count 1 labels' = Nat.min (count 1 labels) 128 /\
    count (-1) labels'
    = Nat.min (count (-1) labels) (256 - count 1 labels').
Proof. exact (subsample_spec (init means stds) r labels eq_refl). Qed.

End Subsampling.

(** ** anchor_target.py: the deltas of the positive anchors *)

Section DeltaRows.

Import geometry misc tf anchor_target.

Local Open Scope nat_scope.

Lemma bbox2delta_row_of_boxes (means stds : row4 f32) (a g : row4 Q) :
  transforms.bbox2delta_row means stds a g
  = transforms.bbox2delta_row means stds
      (fin_row (real_box a)) (fin_row (real_box g)).
Proof. reflexivity. Qed.

Lemma proper_box_non_degenerate b :
  proper_box b -> non_degenerate (real_box b).
Proof.
  intros [Hy Hx]. unfold non_degenerate, real_box, row_map.
  cbn [col0 col1 col2 col3]. split; now apply Qlt_Rlt.
Qed.

Variables (means stds : row4 R) (r : rng).
Variables (anchors : list (row4 Q)) (valid_flags : list Z).
Variables (gt_boxes : list (row4 Q)) (gt_class_ids : list Z).

Hypothesis some_anchor : anchors <> [].
Hypothesis one_flag_per_anchor : length valid_flags = length anchors.
Hypothesis some_true_gt_box : fst (trim_zeros gt_boxes) <> [].
Hypothesis proper_anchors : Forall proper_box anchors.
Hypothesis proper_gt_boxes : Forall proper_box (fst (trim_zeros gt_boxes)).
Hypothesis positive_stds : positive_row stds.

Lemma positive_pairs_are_proper labels :
  length labels = length anchors ->
  forall i, In i (where_true (equal labels 1)) ->
    non_degenerate (real_box (nth i anchors padding_box)) /\
    non_degenerate
      (real_box
         (nth (nth i (anchor_best_gt
                        (compute_overlaps anchors
                           (fst (trim_zeros gt_boxes)))) 0)
            (fst (trim_zeros gt_boxes)) padding_box)).
Proof.
  intros Hlen i Hin.
  assert (Hi : i < length anchors).
  { apply where_true_lt in Hin. unfold equal in Hin.
    rewrite length_map in Hin. lia. }
  destruct (compute_overlaps_shape anchors (fst (trim_zeros gt_boxes)))
    as (Hshape & Hdim0 & Hdim1).
  assert (Hne1 : dim1 (compute_overlaps anchors (fst (trim_zeros gt_boxes)))
                 <> 0).
  { rewrite Hdim1. destruct (fst (trim_zeros gt_boxes));
      [congruence | discriminate]. }
  pose proof (anchor_best_gt_range _ Hshape Hne1) as Hrange.
  rewrite Forall_forall in Hrange, proper_anchors, proper_gt_boxes.
  split; apply proper_box_non_degenerate.
  - apply proper_anchors, nth_In, Hi.
  - apply proper_gt_boxes, nth_In. rewrite <- Hdim1.
    apply Hrange, nth_In. rewrite length_anchor_best_gt.
    destruct Hshape as [-> _]. lia.
Qed.



End DeltaRows.

Section DeltaScenarios.

Import geometry misc tf anchor_target scenarios.

Local Open Scope nat_scope.

Lemma two_anchors_proper : Forall proper_box two_anchors.
Proof. repeat constructor. Qed.

Lemma one_object_proper : Forall proper_box (fst (trim_zeros one_object)).
Proof. vm_compute. repeat constructor. Qed.

Lemma docstring_stds_positive :
  positive_row (Row4 (1 / 10) (1 / 10) (2 / 10) (2 / 10))%R.
Proof. unfold positive_row; simpl; lra. Qed.



End DeltaScenarios.

(** ** anchor_target.py: [build_targets] *)

Section Batch.

Import geometry misc tf anchor_target.

Local Open Scope nat_scope.

Lemma index_ok {A : Type} (d : A) (t : list A) i :
  i < length t -> index t i = Ok (nth i t d).
Proof.
  intros Hi. unfold index. now rewrite (nth_error_nth' t d Hi).
Qed.

Lemma index_inv {A : Type} (t : list A) i a :
  index t i = Ok a -> nth_error t i = Some a.
Proof.
  unfold index. destruct (nth_error t i); [| discriminate].
  intros H. now injection H as ->.
Qed.

Lemma stack_ok {A : Type} (ts : list (list A)) n :
  Forall (fun t => length t = n) ts -> stack ts = Ok ts.
Proof.
  intros Hall. destruct ts as [| t ts]; [reflexivity |].
  inversion Hall as [| ? ? Ht Hts]; subst. cbn [stack].
  replace (forallb _ ts) with true; [reflexivity |].
  symmetry. apply forallb_forall. intros u Hu.
  rewrite Forall_forall in Hts. apply Nat.eqb_eq. now apply Hts.
Qed.

Variable self : AnchorTarget.
Variable rngs : nat -> rng.
Variable anchors : list (row4 Q).
Variable valid_flags : list (list Z).
Variable gt_boxes : list (list (row4 Q)).
Variable gt_class_ids : list (list Z).

(** An image without a true ground-truth box makes the loop raise. *)
Lemma build_targets_loop_raises imgs k boxes :
  In k imgs -> nth_error gt_boxes k = Some boxes ->
  fst (trim_zeros boxes) = [] ->
  exists e,
    build_targets_loop self rngs anchors valid_flags gt_boxes gt_class_ids
      imgs = Raise e.
Proof.
  intros Hin Hk Hempty.
  induction imgs as [| i imgs IH]; [inversion Hin |].
  cbn [build_targets_loop].
  destruct (index valid_flags i) as [flags | e]; cbn [bind];
    [| now exists e].
  destruct (index gt_boxes i) as [boxes' | e] eqn:Hboxes; cbn [bind];
    [| now exists e].
  destruct (index gt_class_ids i) as [ids | e]; cbn [bind];
    [| now exists e].
  destruct (Nat.eq_dec i k) as [-> | Hne].
  - apply index_inv in Hboxes. rewrite Hk in Hboxes.
    injection Hboxes as <-.
    rewrite (build_single_target_empty self (rngs k) anchors flags boxes ids
               Hempty).
    now exists InvalidArgument.
  - destruct (_build_single_target self (rngs i) anchors flags boxes' ids)
      as [[m d] | e]; cbn [bind]; [| now exists e].
    destruct IH as (e & ->); [destruct Hin; [contradiction | assumption] |].
    now exists e.
Qed.

(** X19. One image whose ground truth is padding only makes the whole
    batch call raise: no targets are returned for the other images
    either. *)
Theorem build_targets_raises_on_image_without_gt (k : nat)
    (boxes : list (row4 Q)) :
  k < length gt_class_ids ->
  nth_error gt_boxes k = Some boxes ->
  fst (trim_zeros boxes) = [] ->
  exists e,
    build_targets self rngs anchors valid_flags gt_boxes gt_class_ids
    = Raise e.
Proof.
  intros Hk Hboxes Hempty. unfold build_targets.
  destruct (build_targets_loop_raises (seq 0 (length gt_class_ids)) k boxes)
    as (e & ->); [apply in_seq; lia | assumption | assumption |].
  now exists e.
Qed.

Hypothesis Hnum : num_rpn_deltas self = 256%Z.
Hypothesis some_anchor : anchors <> [].
Hypothesis flags_per_image : length valid_flags = length gt_class_ids.
Hypothesis boxes_per_image : length gt_boxes = length gt_class_ids.
Hypothesis one_flag_per_anchor :
  Forall (fun flags => length flags = length anchors) valid_flags.
Hypothesis some_true_gt_box :
  Forall (fun boxes => fst (trim_zeros boxes) <> []) gt_boxes.

Lemma build_targets_loop_ok imgs :
  Forall (fun i => i < length gt_class_ids) imgs ->
  exists ms ds,
    build_targets_loop self rngs anchors valid_flags gt_boxes gt_class_ids
      imgs = Ok (ms, ds) /\
    length ms = length imgs /\ length ds = length imgs /\
    Forall (fun m => length m = length anchors) ms /\
    Forall (fun d => length d = 256) ds /\
    forall k, k < length imgs ->
      _build_single_target self (rngs (nth k imgs 0)) anchors
        (nth (nth k imgs 0) valid_flags [])
        (nth (nth k imgs 0) gt_boxes [])
        (nth (nth k imgs 0) gt_class_ids [])
      = Ok (nth k ms [], nth k ds []).
Proof.
  induction imgs as [| i imgs IH]; intros Hrange.
  - exists [], []. repeat split; try constructor. intros k Hk. inversion Hk.
  - inversion Hrange as [| ? ? Hi Hrest]; subst.
    destruct (IH Hrest) as (ms & ds & Hloop & Hms & Hds & Hlm & Hld & Hper).
    cbn [build_targets_loop].
    rewrite (index_ok [] valid_flags i) by lia.
    rewrite (index_ok [] gt_boxes i) by lia.
    rewrite (index_ok [] gt_class_ids i) by lia.
    cbn [bind].
    assert (Hflags : length (nth i valid_flags []) = length anchors).
    { rewrite Forall_forall in one_flag_per_anchor.
      apply one_flag_per_anchor, nth_In. lia. }
    assert (Hgt : fst (trim_zeros (nth i gt_boxes [])) <> []).
    { rewrite Forall_forall in some_true_gt_box.
      apply some_true_gt_box, nth_In. lia. }
    destruct (build_single_target_ok self Hnum (rngs i) anchors
                (nth i valid_flags []) (nth i gt_boxes [])
                (nth i gt_class_ids []) some_anchor Hflags Hgt)
      as (l8 & labels & _ & _ & _ & _ & Hlen & _ & Hpos & _ & Hrun).
    rewrite Hrun. cbn [bind]. rewrite Hloop. cbn [bind].
    eexists (labels :: ms), (_ :: ds). split; [reflexivity |].
    split; [cbn [length]; now rewrite Hms |].
    split; [cbn [length]; now rewrite Hds |].
    split; [now constructor |].
    split.
    + constructor; [| exact Hld].
      rewrite length_app, length_map, repeat_length, length_where_equal.
      lia.
    + intros [| k] Hk; cbn [nth]; [exact Hrun |].
      apply Hper. cbn [length] in Hk. lia.
Qed.

(** X18. When every image has its row of flags, one flag per anchor
    and at least one true ground-truth box, the batch call returns one
    label row (one label per anchor) and one delta array (256 rows)
    per image, and the targets of image [i] are those of
    [_build_single_target] on the [i]-th rows alone: images do not
    interact. *)
Theorem build_targets_per_image :
  exists matchs deltas,
    build_targets self rngs anchors valid_flags gt_boxes gt_class_ids
    = Ok (matchs, deltas) /\
    length matchs = length gt_class_ids /\
    length deltas = length gt_class_ids /\
    forall i, i < length gt_class_ids ->
      _build_single_target self (rngs i) anchors (nth i valid_flags [])
        (nth i gt_boxes []) (nth i gt_class_ids [])
      = Ok (nth i matchs [], nth i deltas []) /\
      length (nth i matchs []) = length anchors /\
      length (nth i deltas []) = 256.
Proof.
  destruct (build_targets_loop_ok (seq 0 (length gt_class_ids)))
    as (ms & ds & Hloop & Hms & Hds & Hlm & Hld & Hper).
  { apply Forall_forall. intros i Hi. apply in_seq in Hi. lia. }
  rewrite length_seq in Hms, Hds.
  exists ms, ds. unfold build_targets. rewrite Hloop. cbn [bind].
  rewrite (stack_ok ms _ Hlm). cbn [bind].
  rewrite (stack_ok ds _ Hld). cbn [bind].
  split; [reflexivity |]. split; [exact Hms |]. split; [exact Hds |].
  intros i Hi. split; [| split].
  - specialize (Hper i). rewrite length_seq in Hper.
    rewrite seq_nth in Hper by exact Hi. now apply Hper.
  - rewrite Forall_forall in Hlm. apply Hlm, nth_In. lia.
  - rewrite Forall_forall in Hld. apply Hld, nth_In. lia.
Qed.

End Batch.

Section BatchScenarios.

Import geometry misc tf anchor_target scenarios.

Local Open Scope nat_scope.

Lemma build_targets_raises_on_image_without_gt_witness :
  exists e,
    build_targets builder (fun _ => first_draws) two_anchors
      [[1; 1]; [1; 1]]%Z [one_object; padding_only] [[1]; [0]]%Z
    = Raise e.
Proof.
  apply (build_targets_raises_on_image_without_gt builder
           (fun _ => first_draws) two_anchors [[1; 1]; [1; 1]]%Z
           [one_object; padding_only] [[1]; [0]]%Z 1 padding_only).
  - vm_compute. lia.
  - reflexivity.
  - reflexivity.
Defined.

Lemma build_targets_per_image_witness :
  exists matchs deltas,
    build_targets builder (fun _ => first_draws) two_anchors
      [[1; 1]; [1; 0]]%Z [one_object; one_object] [[1]; [1]]%Z
    = Ok (matchs, deltas) /\
    length matchs = 2 /\ length deltas = 2.
Proof.
  destruct (build_targets_per_image builder (fun _ => first_draws)
              two_anchors [[1; 1]; [1; 0]]%Z [one_object; one_object]
              [[1]; [1]]%Z eq_refl two_anchors_not_empty eq_refl eq_refl)
    as (matchs & deltas & Hrun & Hm & Hd & _).
  - repeat constructor.
  - repeat constructor; exact one_object_is_true_gt.
  - exists matchs, deltas. split; [exact Hrun |]. split; assumption.
Defined.

End BatchScenarios.

(** ** anchor_target.py: coverage without surplus *)

Section CoverageKept.

Import geometry misc tf anchor_target.

Local Open Scope nat_scope.

Lemma resets_count_le (l : list Z) :
  forall l', length l' = length l ->
    (forall i, nth i l' 0%Z = nth i l 0%Z \/ nth i l' 0%Z = 0%Z) ->
    count 1 l' <= count 1 l.
Proof.
  unfold count.
  induction l as [| x l IH]; intros [| x' l'] Hlen Hkeep; try discriminate;
    [apply Nat.le_refl |].
  assert (Htail : count_occ Z.eq_dec l' 1%Z <= count_occ Z.eq_dec l 1%Z).
  { apply IH; [now injection Hlen |]. intros i. exact (Hkeep (S i)). }
  destruct (Hkeep 0) as [Hhead | Hhead]; cbn [nth] in Hhead; subst x'.
  - destruct (Z.eq_dec x 1) as [-> | Hne].
    + rewrite !count_occ_cons_eq by reflexivity. lia.
    + rewrite !(count_occ_cons_neq _ _ Hne). exact Htail.
  - rewrite (count_occ_cons_neq Z.eq_dec l') by discriminate.
    destruct (Z.eq_dec x 1) as [-> | Hne].
    + rewrite count_occ_cons_eq by reflexivity. lia.
    + now rewrite (count_occ_cons_neq _ _ Hne).
Qed.

(** Resets that keep the number of positives keep every positive. *)
Lemma resets_keep_ones (l : list Z) :
  forall l', length l' = length l ->
    (forall i, nth i l' 0%Z = nth i l 0%Z \/ nth i l' 0%Z = 0%Z) ->
    count 1 l' = count 1 l ->
    forall i, nth i l 0%Z = 1%Z -> nth i l' 0%Z = 1%Z.
Proof.
  induction l as [| x l IH]; intros [| x' l'] Hlen Hkeep Hcount i Hi;
    try discriminate; [destruct i; discriminate |].
  assert (Hlen' : length l' = length l) by (now injection Hlen).
  assert (Hkeep' : forall i, nth i l' 0%Z = nth i l 0%Z \/
                             nth i l' 0%Z = 0%Z)
    by (intros k; exact (Hkeep (S k))).
  pose proof (resets_count_le l l' Hlen' Hkeep') as Hle.
  unfold count in *.
  destruct (Hkeep 0) as [Hhead | Hhead]; cbn [nth] in Hhead; subst x'.
  - assert (Htail : count_occ Z.eq_dec l' 1%Z = count_occ Z.eq_dec l 1%Z).
    { destruct (Z.eq_dec x 1) as [-> | Hne].
      - rewrite !count_occ_cons_eq in Hcount by reflexivity. lia.
      - now rewrite !(count_occ_cons_neq _ _ Hne) in Hcount. }
    destruct i as [| i]; [exact Hi |]. cbn [nth] in *.
    now apply IH.
  - rewrite (count_occ_cons_neq Z.eq_dec l') in Hcount by discriminate.
    destruct (Z.eq_dec x 1) as [-> | Hne].
    + rewrite count_occ_cons_eq in Hcount by reflexivity. lia.
    + rewrite (count_occ_cons_neq _ _ Hne) in Hcount.
      destruct i as [| i]; [cbn [nth] in Hi; congruence |]. cbn [nth] in *.
      now apply IH.
Qed.

Variables (means stds : row4 f32) (r : rng).
Variables (anchors : list (row4 Q)) (valid_flags : list Z).
Variables (gt_boxes : list (row4 Q)) (gt_class_ids : list Z).

Hypothesis some_anchor : anchors <> [].
Hypothesis one_flag_per_anchor : length valid_flags = length anchors.
Hypothesis some_true_gt_box : fst (trim_zeros gt_boxes) <> [].

(** X15. Coverage survives when there is no surplus of positives: if
    the matching labels at most 128 anchors 1, every anchor it labelled
    1 is returned with label 1, so every ground-truth box keeps its
    forced match, whatever the random choices. *)
Theorem coverage_kept_without_positive_surplus :
  exists anchor_iou_argmax l8 labels deltas,
    assign_labels (init means stds) anchors valid_flags
      (compute_overlaps anchors (fst (trim_zeros gt_boxes)))
    = Ok (anchor_iou_argmax, l8) /\
    _build_single_target (init means stds) r anchors valid_flags gt_boxes
      gt_class_ids = Ok (labels, deltas) /\
    (count 1 l8 <= 128 ->
     (forall i, nth_error l8 i = Some 1%Z -> nth_error labels i = Some 1%Z) /\
     (forall j, j < length (fst (trim_zeros gt_boxes)) ->
        nth_error labels
          (nth j (best_anchor_for_gt
                    (compute_overlaps anchors (fst (trim_zeros gt_boxes))))
             0)
        = Some 1%Z)).
Proof.
  destruct (build_single_target_ok (init means stds) eq_refl r anchors
              valid_flags gt_boxes gt_class_ids
              some_anchor one_flag_per_anchor some_true_gt_box)
    as (l8 & labels & Hassign & Hlen8 & Hlab & _ & Hlen & Hkeep & Hpos & _
        & Hrun).
  eexists _, l8, labels, _. split; [exact Hassign |].
  split; [exact Hrun |].
  intros Hfew.
  assert (Hones : forall i, nth_error l8 i = Some 1%Z ->
                            nth_error labels i = Some 1%Z).
  { intros i Hi.
    assert (Hi' : i < length l8) by (apply nth_error_Some; congruence).
    apply nth_error_of_nth; [lia |].
    apply (resets_keep_ones l8 labels); [lia | exact Hkeep | lia |].
    now apply nth_of_nth_error. }
  split; [exact Hones |].
  intros j Hj. apply Hones.
  destruct (compute_overlaps_shape anchors (fst (trim_zeros gt_boxes)))
    as (Hshape & Hdim0 & Hdim1).
  assert (Hne0 : dim0 (compute_overlaps anchors (fst (trim_zeros gt_boxes)))
                 <> 0).
  { rewrite Hdim0. destruct anchors; [congruence | discriminate]. }
  pose proof (best_anchor_for_gt_range _ Hshape Hne0) as Hrange.
  rewrite Forall_forall in Hrange.
  assert (Hin : In (nth j (best_anchor_for_gt
                             (compute_overlaps anchors
                                (fst (trim_zeros gt_boxes)))) 0)
                   (best_anchor_for_gt
                      (compute_overlaps anchors (fst (trim_zeros gt_boxes)))))
    by (apply nth_In; rewrite length_best_anchor_for_gt; lia).
  pose proof (Hrange _ Hin) as Hbest. rewrite Hdim0 in Hbest.
  apply nth_error_of_nth; [lia |].
  rewrite (Hlab _ Hbest). unfold label_of.
  now rewrite (proj2 (existsb_eqb_In _ _) Hin).
Qed.

End CoverageKept.

Section CoverageScenario.

Import geometry misc tf anchor_target scenarios.

Local Open Scope nat_scope.

Lemma coverage_kept_without_positive_surplus_witness :
  exists labels deltas,
    _build_single_target builder first_draws two_anchors [1; 1]%Z
      one_object [1%Z] = Ok (labels, deltas) /\
    nth_error labels 0 = Some 1%Z.
Proof.
  destruct (coverage_kept_without_positive_surplus means stds first_draws
              two_anchors [1; 1]%Z one_object [1%Z]
              two_anchors_not_empty eq_refl one_object_is_true_gt)
    as (aia & l8 & labels & deltas & Hassign & Hrun & Hcover).
  exists labels, deltas. split; [exact Hrun |].
  assert (Hl8 : l8 = [1; -1]%Z).
  { assert (Heval : assign_labels builder two_anchors [1; 1]%Z
                      (compute_overlaps two_anchors
                         (fst (trim_zeros one_object)))
                    = Ok ([0; 0], [1; -1]%Z)) by (vm_compute; reflexivity).
    unfold builder in Heval. rewrite Heval in Hassign.
    symmetry. exact (ok_pair_snd _ _ _ _ Hassign). }
  apply (proj1 (Hcover ltac:(rewrite Hl8; vm_compute; lia)) 0).
  now rewrite Hl8.
Defined.

End CoverageScenario.
